(** * A shallow embedding of the chat agent of [src/server.ts]

    The file follows the TypeScript source: JavaScript strings are sequences
    of UTF-16 code units, arrays are lists, the asynchronous handlers of
    [ChatAgent] are programs of a small command monad whose commands are the
    effects the handlers perform (reading and replacing the agent state,
    sending a frame on the connection, awaiting the model binding, awaiting a
    timer). *)

From Stdlib Require Import ZArith NArith Strings.String Strings.Ascii DecimalString.
From stdpp Require Import base numbers option list.
From stdpp Require Import gmap.

Set Default Proof Using "Type".

(** ** JavaScript strings *)

(** A string is the list of its UTF-16 code units. *)
Definition code_unit : Type := N.
Definition jsstring : Type := list code_unit.

(** A source literal; the literals of [server.ts] are all ASCII. *)
Definition lit (s : string) : jsstring := N_of_ascii <$> list_ascii_of_string s.
Arguments lit s%_string : simpl never.

(** The characters matched by [\s] and stripped by [trim]: the WhiteSpace
    and LineTerminator productions of ECMAScript. *)
Definition is_white_space (c : code_unit) : bool :=
  existsb (N.eqb c)
    [9; 10; 11; 12; 13; 32; 160; 5760; 8232; 8233; 8239; 8287; 12288; 65279]%N
  || ((8192 <=? c) && (c <=? 8202))%N.

(** [s.split(/\s+/)]: the pieces between maximal runs of white space; a
    string that starts (ends) with white space yields an empty first (last)
    piece, and the empty string yields one empty piece. [in_sep] records that
    the previous unit belonged to the separator being skipped. *)
Fixpoint split_ws_from (in_sep : bool) (piece s : jsstring) : list jsstring :=
  match s with
  | [] => [piece]
  | c :: rest =>
      if is_white_space c then
        if in_sep then split_ws_from true piece rest
        else piece :: split_ws_from true [] rest
      else split_ws_from false (piece ++ [c]) rest
  end.

Definition String_split_ws (s : jsstring) : list jsstring :=
  split_ws_from false [] s.

(** Truthiness of a string: [Boolean(s)]. *)
Definition truthy_string (s : jsstring) : bool :=
  match s with [] => false | _ :: _ => true end.

(** [parts.join(sep)] *)
Fixpoint Array_join (sep : jsstring) (parts : list jsstring) : jsstring :=
  match parts with
  | [] => []
  | x :: rest =>
      match rest with
      | [] => x
      | _ :: _ => x ++ sep ++ Array_join sep rest
      end
  end.

(** The relative index of [Array.prototype.slice]: a negative index counts
    from the end, and the result is clamped to [0, len]. *)
Definition rel_index (len i : Z) : Z :=
  if (i <? 0)%Z then Z.max (len + i) 0 else Z.min i len.

(** [l.slice(start, end)]; [end_ = None] is the omitted argument. *)
Definition Array_slice {A} (l : list A) (start : Z) (end_ : option Z) : list A :=
  let len := Z.of_nat (length l) in
  let k := rel_index len start in
  let final := match end_ with None => len | Some e => rel_index len e end in
  take (Z.to_nat (final - k)) (drop (Z.to_nat k) l).

(** [s.trim()] *)
Fixpoint trim_start (s : jsstring) : jsstring :=
  match s with
  | c :: rest => if is_white_space c then trim_start rest else s
  | [] => []
  end.

Definition String_trim (s : jsstring) : jsstring :=
  reverse (trim_start (reverse (trim_start s))).

(** [s.startsWith(p)], returning the rest of [s] after the prefix. *)
Fixpoint strip_prefix (p s : jsstring) : option jsstring :=
  match p, s with
  | [], _ => Some s
  | a :: p', b :: s' => if (a =? b)%N then strip_prefix p' s' else None
  | _ :: _, [] => None
  end.

(** [s.includes(needle)] *)
Fixpoint String_includes (needle s : jsstring) : bool :=
  match strip_prefix needle s with
  | Some _ => true
  | None => match s with [] => false | _ :: rest => String_includes needle rest end
  end.

(** ** chunkByWords *)

(** [text.split(/\s+/).filter(Boolean)] *)
Definition words_of (text : jsstring) : list jsstring :=
  List.filter truthy_string (String_split_ws text).

(** The [for] loop of [chunkByWords]. The loop runs for ever when
    [wordsPerChunk] is not positive and there is a word, so the model takes
    the number of loop tests it may perform; [None] is a loop that is still
    running when they are used up. *)
Fixpoint chunk_loop (fuel : nat) (words : list jsstring) (wordsPerChunk i : Z)
    (chunks : list jsstring) : option (list jsstring) :=
  match fuel with
  | O => None
  | S fuel' =>
      if (i <? Z.of_nat (length words))%Z then
        chunk_loop fuel' words wordsPerChunk (i + wordsPerChunk)%Z
          (chunks ++
             [Array_join (lit " ") (Array_slice words i (Some (i + wordsPerChunk)%Z))
                ++ lit " "])
      else Some chunks
  end.

Definition chunkByWords_fuel (fuel : nat) (text : jsstring) (wordsPerChunk : Z)
    : option (list jsstring) :=
  let words := words_of text in
  chunks ← chunk_loop fuel words wordsPerChunk 0 [];
  Some (match chunks with [] => [text] | _ :: _ => chunks end).

(** One loop test per word and a last one are all a terminating run needs
    (see [chunk_loop_fuel_enough] and [chunkByWords_diverges]). *)
Definition chunkByWords (text : jsstring) (wordsPerChunk : Z)
    : option (list jsstring) :=
  chunkByWords_fuel (S (length (words_of text))) text wordsPerChunk.

(** [/^data:image\/[a-zA-Z0-9.+-]+;base64,/.test(value)] *)
Definition is_media_subtype_unit (c : code_unit) : bool :=
  ((97 <=? c) && (c <=? 122) || (65 <=? c) && (c <=? 90)
   || (48 <=? c) && (c <=? 57) || (c =? 46) || (c =? 43) || (c =? 45))%N.

Fixpoint skip_media_subtype (s : jsstring) : jsstring :=
  match s with
  | c :: rest => if is_media_subtype_unit c then skip_media_subtype rest else s
  | [] => []
  end.

Definition image_data_url_test (value : jsstring) : bool :=
  match strip_prefix (lit "data:image/") value with
  | Some (c :: rest) =>
      is_media_subtype_unit c
      && bool_decide (is_Some (strip_prefix (lit ";base64,") (skip_media_subtype rest)))
  | _ => false
  end.

(** ** JavaScript values *)

(** The values that reach the handler from outside: the result of
    [JSON.parse] and the result of the model binding ([AI: any]). Numbers are
    kept abstract; the handler only tests them for truthiness and prints
    them. An object is the list of its own properties in creation order. *)
#[warnings="-register-all"]
Inductive jsval (number : Type) : Type :=
| VUndefined
| VNull
| VBool (b : bool)
| VNum (n : number)
| VStr (s : jsstring)
| VArr (items : list (jsval number))
| VObj (props : list (jsstring * jsval number)).
Arguments VUndefined {number}.
Arguments VNull {number}.
Arguments VBool {number} b.
Arguments VNum {number} n.
Arguments VStr {number} s.
Arguments VArr {number} items.
Arguments VObj {number} props.

(** The built-ins of the JavaScript host that the handler calls and that
    are no code of this repository. [JSON_parse] is [None] when
    [JSON.parse] throws. *)
Class Host : Type := {
  number : Type;
  number_truthy : number -> bool;
  Number_toString : number -> jsstring;
  JSON_parse : jsstring -> option (jsval number);
  JSON_stringify : jsval number -> jsval number
}.

Section Values.
Context `{Host}.

Definition value : Type := jsval number.

(** The own property [key]; a later definition of a key replaces an
    earlier one. *)
Fixpoint own_property (key : jsstring) (props : list (jsstring * value)) : option value :=
  match props with
  | [] => None
  | (k, v) :: rest =>
      match own_property key rest with
      | Some v' => Some v'
      | None => if bool_decide (k = key) then Some v else None
      end
  end.

(** [v?.key] for the keys the handler reads ([type], [content],
    [imageDataUrl], [response], [result], [output_text], [description]):
    none of them is a property of a primitive, of an array or of
    [Object.prototype]. *)
Definition get (v : value) (key : jsstring) : value :=
  match v with
  | VObj props => default VUndefined (own_property key props)
  | _ => VUndefined
  end.

Definition truthy (v : value) : bool :=
  match v with
  | VUndefined | VNull => false
  | VBool b => b
  | VNum n => number_truthy n
  | VStr s => truthy_string s
  | VArr _ | VObj _ => true
  end.

(** [a || b], [a && b], [a ?? b] *)
Definition js_or (a b : value) : value := if truthy a then a else b.
Definition js_and (a b : value) : value := if truthy a then b else a.
Definition js_nullish (a b : value) : value :=
  match a with VUndefined | VNull => b | _ => a end.

(** [String(v)]; [None] when it throws a [TypeError]. The values are data,
    so an own [toString] of an object is not callable: the conversion then
    finds no method that gives a primitive ([Object.prototype.valueOf]
    returns the object) and throws. An array is joined with [","], each
    element converted in its turn, [undefined] and [null] as [""]. *)
Fixpoint ToString (v : value) : option jsstring :=
  match v with
  | VUndefined => Some (lit "undefined")
  | VNull => Some (lit "null")
  | VBool b => Some (if b then lit "true" else lit "false")
  | VNum n => Some (Number_toString n)
  | VStr s => Some s
  | VArr items =>
      Array_join (lit ",") <$>
        ((fix each (l : list value) : option (list jsstring) :=
            match l with
            | [] => Some []
            | x :: rest =>
                match match x with
                      | VUndefined | VNull => Some []
                      | _ => ToString x
                      end with
                | Some text =>
                    match each rest with
                    | Some texts => Some (text :: texts)
                    | None => None
                    end
                | None => None
                end
            end) items)
  | VObj props =>
      match own_property (lit "toString") props with
      | Some _ => None
      | None => Some (lit "[object Object]")
      end
  end.

(** [typeof v === "string" ? v : JSON.stringify(v)] *)
Definition string_or_stringify (v : value) : value :=
  match v with VStr _ => v | _ => JSON_stringify v end.

(** Lines 100-102: the reply text of the primary call. *)
Definition primary_text (aiResp : value) : value :=
  js_nullish
    (js_and aiResp
       (js_or (get aiResp (lit "response"))
          (js_or (get aiResp (lit "result")) (get aiResp (lit "output_text")))))
    (string_or_stringify aiResp).

(** Lines 113-119: the reply text of the fallback call. *)
Definition fallback_text (fallbackResp : value) : value :=
  js_nullish
    (js_and fallbackResp
       (js_or (get fallbackResp (lit "response"))
          (js_or (get fallbackResp (lit "result"))
             (js_or (get fallbackResp (lit "output_text"))
                (get fallbackResp (lit "description"))))))
    (string_or_stringify fallbackResp).

(** What [AI.run] throws, and how an awaited call settles. *)
Inductive thrown : Type :=
| ErrorObject (message : jsstring)
| ThrownValue (v : value).

Inductive settled : Type :=
| Fulfilled (v : value)
| Rejected (err : thrown).

(** [err instanceof Error ? err.message : String(err)]; [None] when
    [String] throws. *)
Definition error_message (err : thrown) : option jsstring :=
  match err with
  | ErrorObject message => Some message
  | ThrownValue v => ToString v
  end.

(** [isImageDataUrl(value) ? value : undefined] *)
Definition isImageDataUrl (v : value) : bool :=
  match v with VStr s => image_data_url_test s | _ => false end.

Definition accepted_image (v : value) : option jsstring :=
  if isImageDataUrl v then match v with VStr s => Some s | _ => None end
  else None.

End Values.

(** ** The data of the agent *)

Inductive Role : Set := user | assistant.

Record ChatMessage : Type := {
  role : Role;
  content : jsstring;
  imageDataUrl : option jsstring
}.

Record ChatState : Type := { messages : list ChatMessage }.

Definition initialState : ChatState := {| messages := [] |}.

Definition TEXT_MODEL : jsstring := lit "@cf/meta/llama-3.3-70b-instruct-fp8-fast".
Definition VISION_MODEL : jsstring := lit "@cf/meta/llama-3.2-11b-vision-instruct".
Definition VISION_FALLBACK_MODEL : jsstring := lit "@cf/llava-hf/llava-1.5-7b-hf".

(** The frames the server sends, before [JSON.stringify];
    [assistant_reply] is the frame of type ["assistant"]. *)
Inductive ServerFrame : Type :=
| history (msgs : list ChatMessage)
| assistant_start
| assistant_chunk (text : jsstring)
| assistant_done (text : jsstring)
| assistant_reply (text : jsstring).

(** The inputs of [AI.run]. The content of a message is a string, or the
    text and image parts that [toAiMessage] builds; [StoredText] is a stored
    turn given to the call as it is, [{role, content, imageDataUrl}] with
    its [imageDataUrl] property beside the string content. *)
Inductive AiRole : Set := system_role | chat (r : Role).

Inductive AiContent : Type :=
| PlainText (text : jsstring)
| TextAndImage (text : jsstring) (image_url : jsstring)
| StoredText (text : jsstring) (imageDataUrl : jsstring).

Record AiMessage : Type := { ai_role : AiRole; ai_content : AiContent }.

Inductive AiInputs : Type :=
| ChatInputs (msgs : list AiMessage) (max_tokens : Z)
| PromptInputs (prompt : jsstring) (image : jsstring).

(** Truthiness of a [string | undefined]. *)
Definition truthy_opt (s : option jsstring) : bool :=
  match s with Some s => truthy_string s | None => false end.

Definition toAiMessage (message : ChatMessage) : AiMessage :=
  match role message, imageDataUrl message with
  | user, Some url =>
      if truthy_string url then
        {| ai_role := chat user;
           ai_content :=
             TextAndImage
               (if truthy_string (content message) then content message
                else lit "Please describe this image.")
               url |}
      else {| ai_role := chat (role message); ai_content := PlainText (content message) |}
  | _, _ => {| ai_role := chat (role message); ai_content := PlainText (content message) |}
  end.

Definition toTextOnlyMessage (message : ChatMessage) : AiMessage :=
  {| ai_role := chat (role message); ai_content := PlainText (content message) |}.

(** ** The command monad of the handlers *)

Definition connection : Type := nat.

Section Agent.
Context `{Host}.

(** A handler is a tree of the effects it performs. [AwaitRun] and
    [AwaitSleep] are the two places where an [async] handler is suspended
    ([await this.env.AI.run(...)], [await sleep(24)]); [Throw] is the
    [TypeError] of a [String(v)] that no [try] of the handler catches, which
    ends the handler; [Diverge] is a handler that never returns. *)
Inductive prog (A : Type) : Type :=
| Ret (a : A)
| GetState (k : ChatState -> prog A)
| SetState (s : ChatState) (k : prog A)
| Send (c : connection) (frame : ServerFrame) (k : prog A)
| AwaitRun (model : jsstring) (inputs : AiInputs) (k : settled -> prog A)
| AwaitSleep (ms : Z) (k : prog A)
| Throw
| Diverge.
Arguments Ret {A} a.
Arguments GetState {A} k.
Arguments SetState {A} s k.
Arguments Send {A} c frame k.
Arguments AwaitRun {A} model inputs k.
Arguments AwaitSleep {A} ms k.
Arguments Throw {A}.
Arguments Diverge {A}.

Fixpoint bind {A B} (p : prog A) (f : A -> prog B) : prog B :=
  match p with
  | Ret a => f a
  | GetState k => GetState (fun s => bind (k s) f)
  | SetState s k => SetState s (bind k f)
  | Send c frame k => Send c frame (bind k f)
  | AwaitRun model inputs k => AwaitRun model inputs (fun r => bind (k r) f)
  | AwaitSleep ms k => AwaitSleep ms (bind k f)
  | Throw => Throw
  | Diverge => Diverge
  end.

#[global] Instance prog_ret : MRet prog := @Ret.
#[global] Instance prog_bind : MBind prog := fun A B f p => bind p f.

(** [this.state], [this.setState(s)], [connection.send(JSON.stringify(frame))],
    [await this.env.AI.run(model, inputs)] inside [try], [await sleep(ms)] *)
Definition getState : prog ChatState := GetState Ret.
Definition setState (s : ChatState) : prog unit := SetState s (Ret tt).
Definition send (c : connection) (frame : ServerFrame) : prog unit := Send c frame (Ret tt).
Definition AI_run (model : jsstring) (inputs : AiInputs) : prog settled :=
  AwaitRun model inputs Ret.
Definition sleep (ms : Z) : prog unit := AwaitSleep ms (Ret tt).

(** [for (const x of xs) body] *)
Fixpoint for_of {A} (xs : list A) (body : A -> prog unit) : prog unit :=
  match xs with
  | [] => Ret tt
  | x :: rest => body x;; for_of rest body
  end.

(** ** The handlers of ChatAgent *)

Definition onConnect (connection : connection) : prog unit :=
  state ← getState;
  send connection (history (Array_slice (messages state) (-50) None)).

Definition system : jsstring :=
  Array_join (lit " ")
    [lit "You are a helpful assistant running on Cloudflare.";
     lit "Be concise, actionable, and friendly.";
     lit "If you do not know something, say so and suggest next steps."].

Definition LICENSE_NOTICE : jsstring :=
  lit "Image analysis is currently unavailable for this account. For Llama 3.2 vision, run one prompt with text 'agree' in Workers AI to accept the license, then try again.".

Definition RETRY_NOTICE : jsstring :=
  lit "I hit an AI error. Please try again in a moment.".

(** Lines 76-80. *)
Definition userMessage_of (userText : jsstring) (imageDataUrl : option jsstring)
    : ChatMessage :=
  {| role := user;
     content := if truthy_string userText then userText else lit "Describe this image.";
     imageDataUrl := imageDataUrl |}.

(** Lines 84-98: the model and the inputs of the primary call. *)
Definition primary_model (imageDataUrl : option jsstring) : jsstring :=
  if truthy_opt imageDataUrl then VISION_MODEL else TEXT_MODEL.

Definition primary_inputs (imageDataUrl : option jsstring)
    (nextMessages : list ChatMessage) : AiInputs :=
  let context := Array_slice nextMessages (-12) None in
  let visionContext := toAiMessage <$> context in
  let textContext := toTextOnlyMessage <$> context in
  ChatInputs
    ({| ai_role := system_role; ai_content := PlainText system |}
       :: (if truthy_opt imageDataUrl then visionContext else textContext))
    512.

(** Lines 109-112: the inputs of the fallback call. *)
Definition fallback_inputs (userText image : jsstring) : AiInputs :=
  PromptInputs
    (system ++ [10; 10]%N ++ lit "User request: "
       ++ (if truthy_string userText then userText else lit "Describe this image."))
    image.

(** Lines 156-167: what follows the [try] statement. *)
Definition reply (connection : connection) (nextMessages : list ChatMessage)
    (assistantText : value) : prog unit :=
  match ToString assistantText with
  | None => Throw
  | Some finalText =>
      let full :=
        nextMessages
          ++ [{| role := assistant; content := finalText; imageDataUrl := None |}] in
      setState {| messages := full |};;
      send connection assistant_start;;
      match chunkByWords finalText 3 with
      | Some chunks =>
          for_of chunks (fun chunk =>
            send connection (assistant_chunk chunk);;
            sleep 24)
      | None => Diverge
      end;;
      send connection (assistant_done finalText);;
      send connection (assistant_reply finalText)
  end.

(** Lines 100-154: the rest of the [try] statement once the primary call
    has settled, with its [catch] clause, and the lines that follow it. *)
Definition after_primary (connection : connection) (userText : jsstring)
    (imageDataUrl : option jsstring) (nextMessages : list ChatMessage)
    (outcome : settled) : prog unit :=
  match outcome with
  | Fulfilled aiResp => reply connection nextMessages (primary_text aiResp)
  | Rejected err =>
      match error_message err with
      | None => Throw
      | Some msg =>
          if truthy_opt imageDataUrl
             && String_includes (lit "submit the prompt 'agree'") msg
          then
            fallbackResp ←
              AI_run VISION_FALLBACK_MODEL
                (fallback_inputs userText (default [] imageDataUrl)) (* a string here *);
            match fallbackResp with
            | Fulfilled fallbackResp =>
                reply connection nextMessages (fallback_text fallbackResp)
            | Rejected _ =>
                send connection (assistant_done LICENSE_NOTICE);;
                send connection (assistant_reply LICENSE_NOTICE)
            end
          else
            send connection (assistant_done RETRY_NOTICE);;
            send connection (assistant_reply RETRY_NOTICE)
      end
  end.

(** Lines 72-168, once the payload is known to be a user payload whose
    [content] is the string [content]. *)
Definition onUserPayload (connection : connection) (payload : value)
    (content : jsstring) : prog unit :=
  let userText := String_trim content in
  let imageDataUrl := accepted_image (get payload (lit "imageDataUrl")) in
  if negb (truthy_string userText) && negb (truthy_opt imageDataUrl) then Ret tt
  else
    let userMessage := userMessage_of userText imageDataUrl in
    state ← getState;
    let nextMessages := messages state ++ [userMessage] in
    setState {| messages := nextMessages |};;
    outcome ←
      AI_run (primary_model imageDataUrl) (primary_inputs imageDataUrl nextMessages);
    after_primary connection userText imageDataUrl nextMessages outcome.

Definition onMessage (connection : connection) (message : jsstring) : prog unit :=
  match JSON_parse message with
  | None => Ret tt
  | Some payload =>
      match get payload (lit "type") with
      | VStr type =>
          if bool_decide (type = lit "reset") then
            setState {| messages := [] |};;
            send connection (history [])
          else if bool_decide (type = lit "user") then
            match get payload (lit "content") with
            | VStr content => onUserPayload connection payload content
            | _ => Ret tt
            end
          else Ret tt
      | _ => Ret tt
      end
  end.

(** ** Running a handler *)

(** The world outside the agent: how the model binding settles a call
    (every call settles), and what the other handlers of the same agent do
    to the state while this one is suspended at an [await]. [W] is the
    state of that world. *)
Record Env (W : Type) : Type := {
  AI_answer : W -> jsstring -> AiInputs -> settled * W;
  meanwhile : W -> ChatState -> ChatState * W
}.
Arguments AI_answer {W} _ _ _ _.
Arguments meanwhile {W} _ _ _.

(** No other handler runs during an [await]. *)
Definition quiet {W} (E : Env W) : Prop :=
  forall w s, meanwhile E w s = (s, w).

Inductive event : Type :=
| Persisted (s : ChatState)
| Sent (c : connection) (frame : ServerFrame)
| Called (model : jsstring) (inputs : AiInputs) (r : settled)
| Slept (ms : Z)
| Raised.

(** [returned] is [None] for a handler that does not return: it threw, and
    [Raised] is the last event of its trace, or it never ends. *)
Record outcome (A W : Type) : Type := {
  final_state : ChatState;
  final_world : W;
  trace : list event;
  returned : option A
}.
Arguments final_state {A W} _.
Arguments final_world {A W} _.
Arguments trace {A W} _.
Arguments returned {A W} _.

Definition logged {A W} (e : event) (o : outcome A W) : outcome A W :=
  {| final_state := final_state o; final_world := final_world o;
     trace := e :: trace o; returned := returned o |}.

Fixpoint exec {A W} (E : Env W) (p : prog A) (s : ChatState) (w : W) : outcome A W :=
  match p with
  | Ret a => {| final_state := s; final_world := w; trace := []; returned := Some a |}
  | GetState k => exec E (k s) s w
  | SetState s' k => logged (Persisted s') (exec E k s' w)
  | Send c frame k => logged (Sent c frame) (exec E k s w)
  | AwaitRun model inputs k =>
      let '(r, w1) := AI_answer E w model inputs in
      let '(s', w2) := meanwhile E w1 s in
      logged (Called model inputs r) (exec E (k r) s' w2)
  | AwaitSleep ms k =>
      let '(s', w') := meanwhile E w s in
      logged (Slept ms) (exec E k s' w')
  | Throw => {| final_state := s; final_world := w; trace := [Raised]; returned := None |}
  | Diverge => {| final_state := s; final_world := w; trace := []; returned := None |}
  end.

(** The handler ended by throwing. *)
Definition threw (t : list event) : bool :=
  match last t with Some Raised => true | _ => false end.

(** The frames of a list delivered one after the other, each handled to its
    end before the next is delivered. A handler that throws has ended, and
    the next frame is delivered; after one that never ends, none is. *)
Fixpoint deliver_all {W} (E : Env W) (c : connection) (frames : list jsstring)
    (s : ChatState) (w : W) : outcome unit W :=
  match frames with
  | [] => {| final_state := s; final_world := w; trace := []; returned := Some tt |}
  | frame :: rest =>
      let o := exec E (onMessage c frame) s w in
      if bool_decide (is_Some (returned o)) || threw (trace o) then
        let o' := deliver_all E c rest (final_state o) (final_world o) in
        {| final_state := final_state o'; final_world := final_world o';
           trace := trace o ++ trace o'; returned := returned o' |}
      else o
  end.

End Agent.

Arguments Ret {_ A} a.
Arguments GetState {_ A} k.
Arguments SetState {_ A} s k.
Arguments Send {_ A} c frame k.
Arguments AwaitRun {_ A} model inputs k.
Arguments AwaitSleep {_ A} ms k.
Arguments Throw {_ A}.
Arguments Diverge {_ A}.
Arguments AI_answer {_ W} _ _ _ _.
Arguments meanwhile {_ W} _ _ _.
Arguments final_state {_ A W} _.
Arguments final_world {_ A W} _.
Arguments trace {_ A W} _.
Arguments returned {_ A W} _.


(** ** The earlier version of the agent

    [server.ts] holds a second, earlier [ChatAgent]: text only, no reset, no
    [try] around the model call, one [assistant] frame for the reply. Its
    [ChatMessage] has no [imageDataUrl]: the turns it stores are turns whose
    [imageDataUrl] is [None]. The turns it finds in the state it gives to
    the model call as they are. *)
Module Earlier.
Section Earlier.
Context `{Host}.

(** How an [async] handler ends: it returns, or an awaited call rejected
    outside any [try] and the handler's promise rejects with the error.
    (A [String(v)] that throws ends it by [Throw], as in the current
    version.) *)
Inductive completion : Type :=
| Returned
| Threw (err : thrown).

Definition system : jsstring :=
  Array_join (lit " ")
    [lit "You are a helpful assistant running on Cloudflare.";
     lit "Be concise, actionable, and friendly.";
     lit "If you don't know something, say so and suggest next steps."].

Definition onConnect (connection : connection) : prog unit :=
  state ← getState;
  send connection (history (Array_slice (messages state) (-50) None)).

(** A stored turn as an element of [inputs.messages] (line 225 spreads
    [context] there): the object itself, with the [imageDataUrl] it has. *)
Definition stored_turn (message : ChatMessage) : AiMessage :=
  {| ai_role := chat (role message);
     ai_content :=
       match imageDataUrl message with
       | Some url => StoredText (content message) url
       | None => PlainText (content message)
       end |}.

Definition onMessage (connection : connection) (message : jsstring) : prog completion :=
  match JSON_parse message with
  | None => Ret Returned
  | Some payload =>
      match get payload (lit "type"), get payload (lit "content") with
      | VStr type, VStr content =>
          if negb (bool_decide (type = lit "user")) then Ret Returned
          else
            let userText := String_trim content in
            if negb (truthy_string userText) then Ret Returned
            else
              state ← getState;
              let nextMessages :=
                messages state
                  ++ [{| role := user; content := userText; imageDataUrl := None |}] in
              setState {| messages := nextMessages |};;
              let context := Array_slice nextMessages (-12) None in
              outcome ←
                AI_run (lit "@cf/meta/llama-3.3-70b-instruct-fp8-fast")
                  (ChatInputs
                     ({| ai_role := system_role; ai_content := PlainText system |}
                        :: (stored_turn <$> context))
                     512);
              match outcome with
              | Rejected err => Ret (Threw err)
              | Fulfilled aiResp =>
                  let assistantText := primary_text aiResp in
                  match ToString assistantText with
                  | None => Throw
                  | Some text =>
                      let full :=
                        nextMessages
                          ++ [{| role := assistant; content := text;
                                 imageDataUrl := None |}] in
                      setState {| messages := full |};;
                      send connection (assistant_reply text);;
                      Ret Returned
                  end
              end
      | _, _ => Ret Returned
      end
  end.

End Earlier.
End Earlier.

(** ** The browser client

    The React component of [server.ts]'s third part: the agent id kept in
    [localStorage], the reducer of [ws.onmessage] and [sendMessage]. The
    payload of a received frame is the object the server passed to
    [JSON.stringify], read back by [JSON.parse]. *)
Module Client.

Definition AGENT_STORAGE_KEY : jsstring := lit "cf_agent_demo_id".

(** [localStorage]: string keys, string values; [getItem] of a missing key
    is [null]. *)
Definition Storage : Type := gmap jsstring jsstring.

(** [randomUUID] is what [crypto.randomUUID()] returns when it is called. *)
Definition getAgentId (randomUUID : jsstring) (localStorage : Storage)
    : jsstring * Storage :=
  match localStorage !! AGENT_STORAGE_KEY with
  | Some existing =>
      if truthy_string existing then (existing, localStorage)
      else (randomUUID, <[AGENT_STORAGE_KEY := randomUUID]> localStorage)
  | None => (randomUUID, <[AGENT_STORAGE_KEY := randomUUID]> localStorage)
  end.

(** The state of [App] that the chat uses. *)
Record App : Type := {
  messages : list ChatMessage;
  input : jsstring;
  waitingForReply : bool
}.

(** [ws.onmessage]: only [history] and [assistant] frames are handled. *)
Definition onmessage (payload : ServerFrame) (app : App) : App :=
  match payload with
  | history msgs =>
      {| messages := msgs; input := input app; waitingForReply := false |}
  | assistant_reply text =>
      {| messages :=
           messages app ++ [{| role := assistant; content := text; imageDataUrl := None |}];
         input := input app; waitingForReply := false |}
  | _ => app
  end.

(** The frames of a list received in their order. *)
Definition receive (frames : list ServerFrame) (app : App) : App :=
  fold_left (fun app payload => onmessage payload app) frames app.

Section Send.
Context `{Host}.


End Send.
End Client.
(** ** Notions used in the statements *)

(** A word: not empty, and free of white space. *)
Definition is_word (w : jsstring) : Prop :=
  w <> [] /\ Forall (fun c => is_white_space c = false) w.

(** Every word followed by one space. *)
Definition spaced (ws : list jsstring) : jsstring :=
  concat ((fun w => w ++ lit " ") <$> ws).

(** The groups of [n] consecutive words: group [k] holds the words
    [k * n], ..., [k * n + n - 1] that exist, and there are
    [chunk_count len n] groups for [len] words (the quotient rounded up). *)
Definition word_group (n : nat) (ws : list jsstring) (k : nat) : list jsstring :=
  take n (drop (k * n) ws).

Definition chunk_count (len n : nat) : nat := (len + n - 1) / n.

Definition word_groups (n : nat) (ws : list jsstring) : list (list jsstring) :=
  word_group n ws <$> seq 0 (chunk_count (length ws) n).

(** A group as a chunk: its words joined by single spaces, and a trailing
    space. *)
Definition render_group (g : list jsstring) : jsstring :=
  Array_join (lit " ") g ++ lit " ".

(** The chunks of a text in closed form, for groups of three words: the
    groups rendered in their order, or the text itself when it has no
    word. *)
Definition chunks_of (text : jsstring) : list jsstring :=
  match words_of text with
  | [] => [text]
  | _ :: _ => render_group <$> word_groups 3 (words_of text)
  end.

#[global] Instance Role_eq_dec : EqDecision Role.
Proof. solve_decision. Defined.

Definition count_role (r : Role) (msgs : list ChatMessage) : nat :=
  length (filter (fun m => role m = r) msgs).

Section Notions.
Context `{Host}.

(** [frame] is a user message that [onMessage] accepts: it parses, its
    [type] is ["user"], its [content] is a string whose trimmed text is
    [userText], its accepted image is [image], and text and image are not
    both missing. *)
Definition user_frame (frame userText : jsstring) (image : option jsstring) : Prop :=
  exists payload content,
    JSON_parse frame = Some payload
    /\ get payload (lit "type") = VStr (lit "user")
    /\ get payload (lit "content") = VStr content
    /\ userText = String_trim content
    /\ image = accepted_image (get payload (lit "imageDataUrl"))
    /\ (userText <> [] \/ image <> None).

Definition valid_user_frame (frame : jsstring) : Prop :=
  exists userText image, user_frame frame userText image.

(** The states persisted, the frames sent and the model calls made, in
    the order of a trace. *)
Definition persisted (t : list event) : list ChatState :=
  omap (fun e => match e with Persisted s => Some s | _ => None end) t.

Definition sent (t : list event) : list (connection * ServerFrame) :=
  omap (fun e => match e with Sent c frame => Some (c, frame) | _ => None end) t.

Definition calls (t : list event) : list (jsstring * AiInputs) :=
  omap (fun e => match e with Called model inputs _ => Some (model, inputs) | _ => None end) t.

(** A model call of the trace was rejected. *)
Definition call_failed (t : list event) : Prop :=
  exists model inputs err, Called model inputs (Rejected err) ∈ t.

(** The events of streaming the chunks: each chunk is sent and followed by
    the pause of 24 ms. *)
Definition chunk_events (c : connection) (chunks : list jsstring) : list event :=
  chunks ≫= fun chunk => [Sent c (assistant_chunk chunk); Slept 24].

(** The state and the world after [n] awaits in a row during which the
    handler itself persists nothing. *)
Fixpoint idle {W} (E : Env W) (n : nat) (s : ChatState) (w : W) : ChatState * W :=
  match n with
  | O => (s, w)
  | S n' => let '(s', w') := meanwhile E w s in idle E n' s' w'
  end.

(** The instruction turn that opens the inputs of the primary call. *)
Definition system_turn : AiMessage :=
  {| ai_role := system_role; ai_content := PlainText system |}.

Definition assistant_turn (text : jsstring) : ChatMessage :=
  {| role := assistant; content := text; imageDataUrl := None |}.

End Notions.

(** ** Notions used in the further properties *)

Section MoreNotions.
Context `{Host}.

(** [frame] parses to a payload whose [type] is ["reset"]. *)
Definition is_reset_frame (frame : jsstring) : Prop :=
  exists payload,
    JSON_parse frame = Some payload
    /\ get payload (lit "type") = VStr (lit "reset").

(** The run of a handler that does nothing. *)
Definition nothing_done {W} (s : ChatState) (w : W) : outcome unit W :=
  {| final_state := s; final_world := w; trace := []; returned := Some tt |}.

End MoreNotions.

(** A stored turn as the handler writes it: a user turn has a text and, if
    it has an image, one that isImageDataUrl accepts; an assistant turn has
    no image. *)
Definition well_formed_turn (turn : ChatMessage) : Prop :=
  match role turn with
  | user =>
      content turn <> []
      /\ forall url, imageDataUrl turn = Some url -> image_data_url_test url = true
  | assistant => imageDataUrl turn = None
  end.

(** Every assistant turn comes right after a user turn. *)
Definition answers_follow_users (msgs : list ChatMessage) : Prop :=
  forall i turn,
    msgs !! i = Some turn -> role turn = assistant ->
    exists j previous, i = S j /\ msgs !! j = Some previous /\ role previous = user.

Definition well_formed_history (msgs : list ChatMessage) : Prop :=
  Forall well_formed_turn msgs /\ answers_follow_users msgs.

(** A frame of the reply stream before its end. *)
Definition is_stream_frame (frame : ServerFrame) : Prop :=
  frame = assistant_start \/ exists chunk, frame = assistant_chunk chunk.

(** ** A sample host and a scripted world

    They instantiate the development on concrete inputs. The sample host has
    integers for numbers, and its [JSON.parse] knows the frames listed in
    [sample_payloads] (flat objects of strings) and rejects every other
    text. *)

Definition quoted (s : string) : jsstring := [34%N] ++ lit s ++ [34%N].

Definition flat_object (props : list (string * string)) : jsstring :=
  lit "{"
    ++ Array_join (lit ",") ((fun kv => quoted kv.1 ++ lit ":" ++ quoted kv.2) <$> props)
    ++ lit "}".

Definition sample_payloads : list (list (string * string)) :=
  [ [("type", "reset")];
    [("type", "user"); ("content", "hello")];
    [("type", "user"); ("content", "  what is new?  ")];
    [("type", "user"); ("content", " "); ("imageDataUrl", "data:image/png;base64,iVBORw0KGgo=")];
    [("type", "user"); ("content", "look"); ("imageDataUrl", "data:image/png;base64,iVBORw0KGgo=")];
    [("type", "user"); ("content", "hi"); ("imageDataUrl", "not an image")];
    [("type", "user"); ("content", "   ")];
    [("type", "ping")] ]%string.

Definition sample_parse (text : jsstring) : option (jsval Z) :=
  (fun props => VObj ((fun kv => (lit kv.1, VStr (lit kv.2))) <$> props))
    <$> List.find (fun props => bool_decide (flat_object props = text)) sample_payloads.

Definition decimal (z : Z) : jsstring := lit (NilEmpty.string_of_int (Z.to_int z)).

(** [JSON.stringify] on integers and on strings that need no escape. *)
Fixpoint sample_json (v : jsval Z) : option jsstring :=
  match v with
  | VUndefined => None
  | VNull => Some (lit "null")
  | VBool b => Some (if b then lit "true" else lit "false")
  | VNum z => Some (decimal z)
  | VStr s => Some ([34%N] ++ s ++ [34%N])
  | VArr items =>
      Some (lit "[" ++
        Array_join (lit ",")
          ((fix each (l : list (jsval Z)) : list jsstring :=
              match l with
              | [] => []
              | x :: rest => default (lit "null") (sample_json x) :: each rest
              end) items)
        ++ lit "]")
  | VObj props =>
      Some (lit "{" ++
        Array_join (lit ",")
          ((fix each (l : list (jsstring * jsval Z)) : list jsstring :=
              match l with
              | [] => []
              | (k, x) :: rest =>
                  match sample_json x with
                  | Some t => ([34%N] ++ k ++ [34%N] ++ lit ":" ++ t) :: each rest
                  | None => each rest
                  end
              end) props)
        ++ lit "}")
  end.

#[global] Instance sample_host : Host := {|
  number := Z;
  number_truthy := fun z => negb (z =? 0)%Z;
  Number_toString := decimal;
  JSON_parse := sample_parse;
  JSON_stringify := fun v => match sample_json v with Some t => VStr t | None => VUndefined end
|}.

(** A world that answers the model calls from a list and lets the other
    handlers act on the state from a second list, one entry per [await]. *)
Record script : Type := {
  answers : list (@settled sample_host);
  others : list (ChatState -> ChatState)
}.

Definition scripted : Env script := {|
  AI_answer w _ _ :=
    match answers w with
    | r :: rest => (r, {| answers := rest; others := others w |})
    | [] => (Rejected (ErrorObject (lit "no answer")), w)
    end;
  meanwhile w s :=
    match others w with
    | f :: rest => (f s, {| answers := answers w; others := rest |})
    | [] => (s, w)
    end
|}.

Definition alone (answers : list (@settled sample_host)) : script :=
  {| answers := answers; others := [] |}.

(** A world that answers the model calls from a list and in which no
    other handler runs. *)
Definition sequential : Env (list (@settled sample_host)) := {|
  AI_answer w _ _ :=
    match w with
    | r :: rest => (r, rest)
    | [] => (Rejected (ErrorObject (lit "no answer")), [])
    end;
  meanwhile w s := (s, w)
|}.

(** The effect on the state of another connection's frame that is handled
    during an [await] (for a frame whose handler does not await itself). *)
Definition handled_meanwhile (c : connection) (frame : jsstring) (s : ChatState) : ChatState :=
  final_state (exec sequential (onMessage c frame) s []).

(** The same for a frame whose handler awaits model calls, answered from
    [answers]: the whole handler runs during the [await] of the other. *)
Definition answered_meanwhile (c : connection) (frame : jsstring)
    (answers : list (@settled sample_host)) (s : ChatState) : ChatState :=
  final_state (exec sequential (onMessage c frame) s answers).

Definition reset_frame : jsstring := flat_object [("type", "reset")]%string.
Definition hello_frame : jsstring :=
  flat_object [("type", "user"); ("content", "hello")]%string.
Definition padded_frame : jsstring :=
  flat_object [("type", "user"); ("content", "  what is new?  ")]%string.
Definition image_only_frame : jsstring :=
  flat_object [("type", "user"); ("content", " ");
               ("imageDataUrl", "data:image/png;base64,iVBORw0KGgo=")]%string.
Definition image_frame : jsstring :=
  flat_object [("type", "user"); ("content", "look");
               ("imageDataUrl", "data:image/png;base64,iVBORw0KGgo=")]%string.
Definition sample_image : jsstring := lit "data:image/png;base64,iVBORw0KGgo=".

Definition response_of (text : string) : @value sample_host :=
  VObj [(lit "response", VStr (lit text))].

(** A value that [String] cannot convert: its own [toString] is a number. *)
Definition no_text : @value sample_host := VObj [(lit "toString", VNum 1%Z)].

Definition license_error : @thrown sample_host :=
  ErrorObject (lit "5016: Prior to using this model, you must submit the prompt 'agree'.").

Definition hello_turn : ChatMessage :=
  {| role := user; content := lit "hello"; imageDataUrl := None |}.

Definition padded_turn : ChatMessage :=
  {| role := user; content := lit "what is new?"; imageDataUrl := None |}.

Definition photo_turn : ChatMessage :=
  {| role := user; content := lit "look"; imageDataUrl := Some sample_image |}.
Example split_sample :
  String_split_ws (lit "  a b ") = [lit ""; lit "a"; lit "b"; lit ""].
Proof. reflexivity. Qed.

Example chunk_sample :
  chunkByWords (lit "one two  three four") 3 = Some [lit "one two three "; lit "four "].
Proof. reflexivity. Qed.

Example chunk_blank : chunkByWords (lit "  ") 3 = Some [lit "  "].
Proof. reflexivity. Qed.

Example chunk_zero : chunkByWords (lit "a") 0 = None.
Proof. reflexivity. Qed.

Example trim_sample : String_trim (lit "  a b ") = lit "a b".
Proof. reflexivity. Qed.

Example image_sample :
  image_data_url_test (lit "data:image/png;base64,AAAA") = true
  /\ image_data_url_test (lit "data:image/;base64,AAAA") = false
  /\ image_data_url_test (lit "x data:image/png;base64,AAAA") = false.
Proof. repeat split; vm_compute; reflexivity. Qed.

Example reply_text_shapes :
  ToString (primary_text (response_of "Sure.")) = Some (lit "Sure.")
  /\ ToString (primary_text (VStr (lit "plain text"))) = Some (lit "plain text")
  /\ ToString (primary_text (VObj [(lit "response", VStr (lit ""));
                                   (lit "result", VStr (lit "from result"))]))
     = Some (lit "from result")
  /\ ToString (primary_text (VObj [(lit "tokens", VNum 3%Z)]))
     = Some (lit "{" ++ quoted "tokens" ++ lit ":3}")
  /\ ToString (primary_text VNull) = Some (lit "null")
  /\ ToString (fallback_text (VObj [(lit "description", VStr (lit "a cat"))]))
     = Some (lit "a cat").
Proof. repeat split; reflexivity. Qed.

Example String_shapes :
  ToString (VArr [VNum 1%Z; VNull; VObj []; VArr [VBool true; VStr (lit "x")]])
  = Some (lit "1,,[object Object],true,x")
  /\ ToString no_text = None
  /\ ToString (VArr [VNum 1%Z; no_text]) = None
  /\ ToString (primary_text (VObj [(lit "response", no_text)])) = None.
Proof. repeat split; reflexivity. Qed.

(** A reply that [String] cannot convert: the handler throws after the user
    turn is stored, and nothing is sent. *)
Example reply_without_text :
  exec sequential (onMessage 1 hello_frame) initialState
    [Fulfilled (VObj [(lit "response", no_text)])]
  = {| final_state := {| messages := [hello_turn] |}; final_world := [];
       trace :=
         [Persisted {| messages := [hello_turn] |};
          Called TEXT_MODEL (primary_inputs None [hello_turn])
            (Fulfilled (VObj [(lit "response", no_text)]));
          Raised];
       returned := None |}.
Proof. reflexivity. Qed.

(** A frame with an image and blank text is stored with the placeholder. *)
Example image_only_turn :
  persisted (trace (exec sequential (onMessage 1 image_only_frame) initialState
                      [Fulfilled (response_of "A red bicycle.")]))
  = [{| messages :=
          [{| role := user; content := lit "Describe this image.";
              imageDataUrl := Some sample_image |}] |};
     {| messages :=
          [{| role := user; content := lit "Describe this image.";
              imageDataUrl := Some sample_image |};
           {| role := assistant; content := lit "A red bicycle."; imageDataUrl := None |}] |}].
Proof. reflexivity. Qed.

(** Blank text and no accepted image: the frame is dropped. *)
Example blank_frame_dropped :
  exec sequential
    (onMessage 1 (flat_object [("type", "user"); ("content", "   ")]%string))
    initialState []
  = {| final_state := initialState; final_world := []; trace := []; returned := Some tt |}.
Proof. reflexivity. Qed.

(** A reset handled while the model call is awaited is undone by the
    reply: the history ends with the pair of turns. *)
Example reset_during_call_is_overwritten :
  final_state
    (exec scripted (onMessage 1 hello_frame) {| messages := [photo_turn] |}
       {| answers := [Fulfilled (response_of "Hi there")];
          others := [handled_meanwhile 2 reset_frame] |})
  = {| messages :=
         [photo_turn; hello_turn;
          {| role := assistant; content := lit "Hi there"; imageDataUrl := None |}] |}.
Proof. reflexivity. Qed.

(** The same happens to the user turn that another handler stores during
    the call: handlers that overlap can lose a turn. *)
Example overlapping_turn_is_overwritten :
  final_state
    (exec scripted (onMessage 1 hello_frame) initialState
       {| answers := [Fulfilled (response_of "Hi there")];
          others := [fun s => {| messages := messages s ++ [photo_turn] |}] |})
  = {| messages :=
         [hello_turn;
          {| role := assistant; content := lit "Hi there"; imageDataUrl := None |}] |}.
Proof. reflexivity. Qed.

(** Three frames in sequence, the second with a rejected model call. *)
Example three_frames_history :
  content <$> messages (final_state
    (deliver_all sequential 1 [hello_frame; image_frame; image_only_frame] initialState
       [Fulfilled (response_of "Hi! How can I help?");
        Rejected (ErrorObject (lit "3040: capacity exceeded"));
        Fulfilled (response_of "A red bicycle.")]))
  = [lit "hello"; lit "Hi! How can I help?"; lit "look"; lit "Describe this image.";
     lit "A red bicycle."].
Proof. reflexivity. Qed.

(** The text of a user turn is the trimmed content. *)
Example padded_frame_is_trimmed :
  persisted (trace (exec sequential (onMessage 1 padded_frame) initialState []))
  = [{| messages :=
          [{| role := user; content := lit "what is new?"; imageDataUrl := None |}] |}].
Proof. reflexivity. Qed.

(** The earlier version gives the stored turns to the model as they are: a
    stored image reaches its call, where the current version sends the
    plain text of the turn. *)
Example earlier_call_carries_stored_image :
  calls (trace (exec sequential (Earlier.onMessage 1 hello_frame)
                  {| messages := [photo_turn] |} []))
  = [(TEXT_MODEL,
      ChatInputs
        [{| ai_role := system_role; ai_content := PlainText Earlier.system |};
         {| ai_role := chat user; ai_content := StoredText (lit "look") sample_image |};
         {| ai_role := chat user; ai_content := PlainText (lit "hello") |}]
        512)]
  /\ calls (trace (exec sequential (onMessage 1 hello_frame)
                     {| messages := [photo_turn] |} []))
     = [(TEXT_MODEL,
         ChatInputs
           [{| ai_role := system_role; ai_content := PlainText system |};
            {| ai_role := chat user; ai_content := PlainText (lit "look") |};
            {| ai_role := chat user; ai_content := PlainText (lit "hello") |}]
           512)].
Proof. split; reflexivity. Qed.
(** * Properties

    ** Strings, slices and chunks *)

Lemma rel_index_from_end (len : nat) (n : nat) :
  (0 < n)%nat -> rel_index (Z.of_nat len) (- Z.of_nat n) = Z.of_nat (len - n).
Proof. intros Hn. unfold rel_index. case_match eqn:E; lia. Qed.

Lemma Array_slice_last {A} (l : list A) (n : nat) :
  (0 < n)%nat -> Array_slice l (- Z.of_nat n) None = drop (length l - n) l.
Proof.
  intros Hn. unfold Array_slice. rewrite rel_index_from_end by done.
  rewrite Nat2Z.id. apply take_ge. rewrite length_drop. lia.
Qed.

Lemma rel_index_nonneg (len i : Z) : (0 <= i)%Z -> rel_index len i = Z.min i len.
Proof. intros Hi. unfold rel_index. case_match eqn:E; lia. Qed.

Lemma Array_slice_window {A} (l : list A) (i n : nat) :
  (i < length l)%nat ->
  Array_slice l (Z.of_nat i) (Some (Z.of_nat i + Z.of_nat n)%Z) = take n (drop i l).
Proof.
  intros Hi. unfold Array_slice. rewrite !rel_index_nonneg by lia.
  rewrite (Z.min_l (Z.of_nat i)) by lia. rewrite Nat2Z.id.
  destruct (decide (i + n <= length l)%nat).
  - f_equal. lia.
  - rewrite !take_ge; [done| |]; rewrite length_drop; lia.
Qed.


Lemma chunk_count_lt len n k : (0 < n)%nat -> (k < chunk_count len n)%nat <-> (k * n < len)%nat.
Proof.
  intros Hn. unfold chunk_count. split.
  - intros Hk. destruct (decide (k * n < len)%nat) as [|Hge]; [done|].
    exfalso. apply Nat.lt_nge in Hk. apply Hk.
    apply Nat.lt_succ_r. apply Nat.Div0.div_lt_upper_bound; lia.
  - intros Hk. apply Nat.div_le_lower_bound; lia.
Qed.

Lemma chunk_loop_closed (ws : list jsstring) (n : nat) :
  (0 < n)%nat ->
  forall fuel k acc,
    (k <= chunk_count (length ws) n)%nat ->
    (chunk_count (length ws) n - k < fuel)%nat ->
    chunk_loop fuel ws (Z.of_nat n) (Z.of_nat (k * n)) acc
    = Some (acc ++ ((fun j => render_group (word_group n ws j)) <$> seq k (chunk_count (length ws) n - k))).
Proof.
  intros Hn. induction fuel as [|fuel IH]; intros k acc Hk Hfuel; [lia|].
  simpl. case_match eqn:E.
  - apply Z.ltb_lt in E. assert (k * n < length ws)%nat as Hlt by lia.
    pose proof (proj2 (chunk_count_lt (length ws) n k Hn) Hlt) as Hc.
    replace (Z.of_nat (k * n) + Z.of_nat n)%Z with (Z.of_nat (S k * n)) by lia.
    rewrite IH by lia.
    replace (chunk_count (length ws) n - k)%nat with (S (chunk_count (length ws) n - S k)) by lia.
    simpl seq. rewrite fmap_cons, <- app_assoc. simpl.
    do 3 f_equal. unfold render_group, word_group. do 2 f_equal.
    replace (Z.of_nat (n + k * n)) with (Z.of_nat (k * n) + Z.of_nat n)%Z by lia.
    by apply Array_slice_window.
  - apply Z.ltb_ge in E.
    assert (~ (k < chunk_count (length ws) n)%nat) as Hnlt.
    { rewrite chunk_count_lt by done. lia. }
    replace (chunk_count (length ws) n - k)%nat with 0%nat by lia.
    simpl. by rewrite app_nil_r.
Qed.

Lemma groups_concat (ws : list jsstring) (n : nat) :
  (0 < n)%nat ->
  forall m k, (k + m = chunk_count (length ws) n)%nat ->
    concat (word_group n ws <$> seq k m) = drop (k * n) ws.
Proof.
  intros Hn. induction m as [|m IH]; intros k Hk; simpl.
  - symmetry. apply drop_ge.
    destruct (decide (k * n < length ws)%nat) as [Hlt|]; [|lia].
    apply (chunk_count_lt _ _ _ Hn) in Hlt. lia.
  - rewrite IH by lia. unfold word_group.
    replace (S k * n)%nat with (k * n + n)%nat by lia.
    rewrite <- drop_drop. apply take_drop.
Qed.

Lemma group_nonempty (ws : list jsstring) (n k : nat) :
  (0 < n)%nat -> (k < chunk_count (length ws) n)%nat -> word_group n ws k <> [].
Proof.
  intros Hn Hk. apply (chunk_count_lt _ _ _ Hn) in Hk.
  intros Hnil. apply (f_equal length) in Hnil.
  unfold word_group in Hnil. rewrite length_take, length_drop in Hnil. simpl in Hnil. lia.
Qed.



Lemma render_spaced (g : list jsstring) : g <> [] -> render_group g = spaced g.
Proof.
  unfold render_group, spaced. induction g as [|x [|y g] IH]; intros Hg; [done| |].
  - simpl. by rewrite app_nil_r.
  - change (Array_join (lit " ") (x :: y :: g)) with (x ++ lit " " ++ Array_join (lit " ") (y :: g)).
    rewrite fmap_cons, concat_cons, <- !app_assoc. do 2 f_equal. by apply IH.
Qed.

Lemma split_ws_from_run (w : jsstring) :
  Forall (fun c => is_white_space c = false) w ->
  forall b p rest,
    split_ws_from b p (w ++ rest) = split_ws_from (b && negb (truthy_string w)) (p ++ w) rest.
Proof.
  induction 1 as [|c w Hc Hw IH]; intros b p rest; simpl.
  - by rewrite app_nil_r, andb_true_r.
  - rewrite Hc, IH. rewrite andb_false_r. simpl.
    destruct w; simpl; by rewrite <- ?app_assoc.
Qed.

Lemma split_ws_from_clean (s : jsstring) :
  forall b p, Forall (fun c => is_white_space c = false) p ->
    Forall (Forall (fun c => is_white_space c = false)) (split_ws_from b p s).
Proof.
  induction s as [|c s IH]; intros b p Hp; simpl.
  - by constructor.
  - destruct (is_white_space c) eqn:Hc.
    + destruct b; [by apply IH|]. constructor; [done|]. by apply IH.
    + apply IH. apply Forall_app. split; [done|]. by repeat constructor.
Qed.

Lemma words_of_are_words (text : jsstring) : Forall is_word (words_of text).
Proof.
  unfold words_of, String_split_ws.
  pose proof (split_ws_from_clean text false [] (Forall_nil_2 _)) as Hall.
  induction Hall as [|w l Hw Hl IH]; simpl; [constructor|].
  destruct w; simpl; [done|]. constructor; [|done]. by split.
Qed.

(** [split(/\s+/)] itself, without [filter(Boolean)], leaves an empty last
    piece after the trailing space. *)
Lemma split_ws_spaced (ws : list jsstring) :
  Forall is_word ws -> forall b, split_ws_from b [] (spaced ws) = ws ++ [[]].
Proof.
  unfold spaced. induction 1 as [|w ws [Hne Hw] _ IH]; intros b; [done|].
  rewrite fmap_cons, concat_cons, <- app_assoc.
  rewrite split_ws_from_run by done.
  destruct w as [|c w]; [done|]. rewrite andb_false_r.
  simpl. by rewrite IH.
Qed.

Lemma split_spaced (ws : list jsstring) :
  Forall is_word ws ->
  forall b, List.filter truthy_string (split_ws_from b [] (spaced ws)) = ws.
Proof.
  unfold spaced. induction 1 as [|w ws [Hne Hw] _ IH]; intros b; [done|].
  rewrite fmap_cons, concat_cons, <- app_assoc.
  rewrite split_ws_from_run by done.
  destruct w as [|c w]; [done|]. rewrite andb_false_r.
  simpl. by rewrite IH.
Qed.

Lemma words_of_spaced (ws : list jsstring) : Forall is_word ws -> words_of (spaced ws) = ws.
Proof. intros Hws. by apply split_spaced. Qed.

Lemma split_joined (ws : list jsstring) :
  Forall is_word ws -> ws <> [] ->
  forall b, List.filter truthy_string (split_ws_from b [] (Array_join (lit " ") ws)) = ws.
Proof.
  induction 1 as [|w ws [Hne Hw] Hws IH]; intros _ b; [done|].
  destruct ws as [|w' ws].
  - simpl. rewrite <- (app_nil_r w) at 1. rewrite split_ws_from_run by done.
    destruct w; [done|]. by rewrite andb_false_r.
  - change (Array_join (lit " ") (w :: w' :: ws)) with (w ++ lit " " ++ Array_join (lit " ") (w' :: ws)).
    rewrite split_ws_from_run by done.
    destruct w as [|c w]; [done|]. rewrite andb_false_r.
    simpl. by rewrite IH.
Qed.

Lemma words_of_joined (ws : list jsstring) :
  Forall is_word ws -> words_of (Array_join (lit " ") ws) = ws.
Proof.
  intros Hws. destruct ws as [|w ws]; [done|]. by apply split_joined.
Qed.

Lemma chunk_count_le (len n : nat) : (0 < n)%nat -> (chunk_count len n <= len)%nat.
Proof.
  intros Hn. destruct (decide (chunk_count len n <= len)%nat) as [|Hgt]; [done|].
  assert (len < chunk_count len n)%nat as Hlt by lia.
  apply (chunk_count_lt _ _ _ Hn) in Hlt. nia.
Qed.

Lemma chunk_count_pos (len n : nat) :
  (0 < n)%nat -> (0 < len)%nat -> (0 < chunk_count len n)%nat.
Proof. intros Hn Hlen. apply chunk_count_lt; lia. Qed.

(** More loop tests than words are enough for a positive group size. *)
Lemma chunk_loop_fuel_enough (ws : list jsstring) (n fuel : nat) :
  (0 < n)%nat -> (length ws < fuel)%nat ->
  chunk_loop fuel ws (Z.of_nat n) 0 [] = Some (render_group <$> word_groups n ws).
Proof.
  intros Hn Hfuel. pose proof (chunk_count_le (length ws) n Hn) as Hle.
  pose proof (chunk_loop_closed ws n Hn fuel 0 []) as Hloop.
  change (Z.of_nat (0 * n)) with 0%Z in Hloop. rewrite Hloop by lia.
  unfold word_groups. by rewrite Nat.sub_0_r, <- list_fmap_compose.
Qed.

Lemma word_groups_nil (n : nat) : word_groups n [] = [].
Proof.
  unfold word_groups, chunk_count. simpl.
  destruct n as [|n]; [done|].
  replace (S n - 1)%nat with n by lia. by rewrite Nat.div_small by lia.
Qed.

Lemma word_groups_nonempty (n : nat) (ws : list jsstring) :
  (0 < n)%nat -> ws <> [] -> word_groups n ws <> [].
Proof.
  intros Hn Hws. unfold word_groups.
  pose proof (chunk_count_pos (length ws) n Hn) as Hpos.
  destruct ws as [|w ws]; [done|].
  destruct (chunk_count (length (w :: ws)) n); [simpl in Hpos; lia|done].
Qed.

(** The chunks in closed form, for a positive group size. *)
Lemma chunkByWords_closed (text : jsstring) (n : nat) :
  (0 < n)%nat ->
  chunkByWords text (Z.of_nat n)
  = Some (match words_of text with
          | [] => [text]
          | _ :: _ => render_group <$> word_groups n (words_of text)
          end).
Proof.
  intros Hn. unfold chunkByWords, chunkByWords_fuel.
  rewrite chunk_loop_fuel_enough by lia. simpl.
  destruct (words_of text) as [|w ws] eqn:Hwords.
  - by rewrite word_groups_nil.
  - pose proof (word_groups_nonempty n (w :: ws) Hn) as Hne.
    destruct (word_groups n (w :: ws)); [by exfalso; apply Hne|done].
Qed.

(** With a group size that is not positive the loop never ends once there
    is a word. *)
Lemma chunk_loop_diverges (ws : list jsstring) (w : Z) :
  ws <> [] -> (w <= 0)%Z ->
  forall fuel i acc, (i <= 0)%Z -> chunk_loop fuel ws w i acc = None.
Proof.
  intros Hws Hw. induction fuel as [|fuel IH]; intros i acc Hi; [done|].
  simpl. destruct ws as [|w0 ws]; [done|].
  case_match eqn:E; [apply IH; lia|].
  apply Z.ltb_ge in E. simpl in E. lia.
Qed.

Lemma chunkByWords_diverges (text : jsstring) (w : Z) (fuel : nat) :
  words_of text <> [] -> (w <= 0)%Z -> chunkByWords_fuel fuel text w = None.
Proof.
  intros Hws Hw. unfold chunkByWords_fuel.
  by rewrite (chunk_loop_diverges _ w Hws Hw fuel 0 []).
Qed.

Lemma spaced_concat (gs : list (list jsstring)) :
  spaced (concat gs) = concat (spaced <$> gs).
Proof.
  unfold spaced. induction gs as [|g gs IH]; [done|].
  simpl. by rewrite fmap_app, concat_app, IH.
Qed.

Lemma word_groups_concat (n : nat) (ws : list jsstring) :
  (0 < n)%nat -> concat (word_groups n ws) = ws.
Proof.
  intros Hn. unfold word_groups.
  by rewrite (groups_concat ws n Hn (chunk_count (length ws) n) 0).
Qed.

(** Every group holds at least one word and at most [n]. *)
Lemma word_groups_sizes (n : nat) (ws : list jsstring) :
  (0 < n)%nat ->
  Forall (fun g => (1 <= length g <= n)%nat) (word_groups n ws).
Proof.
  intros Hn. unfold word_groups. apply Forall_fmap, Forall_forall.
  intros k Hk. apply elem_of_seq in Hk. simpl.
  assert (k < chunk_count (length ws) n)%nat as Hlt by lia.
  apply (chunk_count_lt _ _ _ Hn) in Hlt.
  unfold word_group. rewrite length_take, length_drop. lia.
Qed.

(** The chunks, one after the other, are the words, each followed by one
    space. *)
Lemma concat_rendered (n : nat) (ws : list jsstring) :
  (0 < n)%nat -> concat (render_group <$> word_groups n ws) = spaced ws.
Proof.
  intros Hn. rewrite <- (word_groups_concat n ws Hn) at 2.
  rewrite spaced_concat. f_equal. unfold word_groups.
  rewrite <- !list_fmap_compose. apply Forall_fmap_ext, Forall_forall.
  intros k Hk. apply elem_of_seq in Hk. simpl.
  apply render_spaced, group_nonempty; [done|lia].
Qed.

(** Seven words in groups of three. *)
Lemma chunkByWords_seven (text w1 w2 w3 w4 w5 w6 w7 : jsstring) :
  words_of text = [w1; w2; w3; w4; w5; w6; w7] ->
  chunkByWords text 3
  = Some [w1 ++ lit " " ++ w2 ++ lit " " ++ w3 ++ lit " ";
          w4 ++ lit " " ++ w5 ++ lit " " ++ w6 ++ lit " ";
          w7 ++ lit " "].
Proof.
  intros Hwords. change 3%Z with (Z.of_nat 3).
  rewrite chunkByWords_closed by lia. rewrite Hwords.
  unfold word_groups, render_group. simpl.
  repeat first [rewrite <- app_assoc | rewrite <- app_comm_cons]. reflexivity.
Qed.

(** C10. For a text with at least one word and a positive group size,
    chunkByWords returns, and splitting the concatenation of its chunks on
    white space gives back the words of the text, in their order. *)
Theorem chunks_keep_words (text : jsstring) (wordsPerChunk : Z) :
  words_of text <> [] -> (0 < wordsPerChunk)%Z ->
  exists chunks,
    chunkByWords text wordsPerChunk = Some chunks
    /\ words_of (concat chunks) = words_of text.
Proof.
  intros Hwords Hpos.
  rewrite <- (Z2Nat.id wordsPerChunk) by lia.
  assert (0 < Z.to_nat wordsPerChunk)%nat as Hn by lia.
  rewrite chunkByWords_closed by done.
  destruct (words_of text) as [|w ws] eqn:Hw; [done|].
  eexists. split; [done|].
  rewrite concat_rendered by done.
  apply words_of_spaced. rewrite <- Hw. apply words_of_are_words.
Qed.

Lemma chunks_keep_words_witness :
  words_of (lit "one two  three four") <> []
  /\ (0 < 3)%Z
  /\ exists chunks,
       chunkByWords (lit "one two  three four") 3 = Some chunks
       /\ words_of (concat chunks) = words_of (lit "one two  three four").
Proof.
  split; [discriminate|]. split; [lia|].
  apply chunks_keep_words; [discriminate|lia].
Defined.

(** ** Running the handlers *)

Arguments primary_model : simpl never.
Arguments primary_inputs : simpl never.
Arguments fallback_inputs : simpl never.
Arguments userMessage_of : simpl never.
Arguments chunkByWords : simpl never.
Arguments String_trim : simpl never.
Arguments String_includes : simpl never.
Arguments Array_slice : simpl never.
Arguments reply : simpl never.
Arguments persisted : simpl never.
Arguments sent : simpl never.
Arguments calls : simpl never.

Section Handlers.
Context `{Host} {W : Type} (E : Env W).

Lemma outcome_eta {A} (o : outcome A W) :
  {| final_state := final_state o; final_world := final_world o;
     trace := trace o; returned := returned o |} = o.
Proof. by destruct o. Qed.

(** The run of [bind p f] is the run of [p] followed, when [p] returns, by
    the run of [f] on its result. *)
Lemma exec_bind {A B} (p : prog A) (f : A -> prog B) (s : ChatState) (w : W) :
  exec E (bind p f) s w
  = match returned (exec E p s w) with
    | Some a =>
        let o' := exec E (f a) (final_state (exec E p s w)) (final_world (exec E p s w)) in
        {| final_state := final_state o'; final_world := final_world o';
           trace := trace (exec E p s w) ++ trace o'; returned := returned o' |}
    | None =>
        {| final_state := final_state (exec E p s w);
           final_world := final_world (exec E p s w);
           trace := trace (exec E p s w); returned := None |}
    end.
Proof.
  revert s w. induction p as [a|k IH|s' k IH|c frame k IH|model inputs k IH|ms k IH| |];
    intros s w; simpl.
  - by rewrite outcome_eta.
  - apply IH.
  - rewrite IH. unfold logged. by destruct (returned (exec E k s' w)).
  - rewrite IH. unfold logged. by destruct (returned (exec E k s w)).
  - destruct (AI_answer E w model inputs) as [r w1].
    destruct (meanwhile E w1 s) as [s2 w2].
    rewrite IH. unfold logged. by destruct (returned (exec E (k r) s2 w2)).
  - destruct (meanwhile E w s) as [s2 w2].
    rewrite IH. unfold logged. by destruct (returned (exec E k s2 w2)).
  - done.
  - done.
Qed.

Lemma idle_quiet (n : nat) (s : ChatState) (w : W) : quiet E -> idle E n s w = (s, w).
Proof. intros Hq. induction n as [|n IH]; [done|]. simpl. by rewrite Hq. Qed.

(** The loop that streams the chunks. *)
Lemma exec_stream (c : connection) (chunks : list jsstring) (s : ChatState) (w : W) :
  exec E (for_of chunks (fun chunk => send c (assistant_chunk chunk);; sleep 24)) s w
  = {| final_state := (idle E (length chunks) s w).1;
       final_world := (idle E (length chunks) s w).2;
       trace := chunk_events c chunks; returned := Some tt |}.
Proof.
  revert s w. induction chunks as [|chunk chunks IH]; intros s w; [done|].
  simpl. destruct (meanwhile E w s) as [s1 w1].
  specialize (IH s1 w1). unfold mbind, prog_bind in IH. simpl in IH.
  by rewrite IH.
Qed.

Lemma chunkByWords_3 (text : jsstring) : chunkByWords text 3 = Some (chunks_of text).
Proof. apply (chunkByWords_closed text 3). lia. Qed.

(** What follows the [try] statement when [String(assistantText)] returns
    [text]: the assistant turn is persisted on top of [nextMessages], and
    the reply is streamed. *)
Lemma exec_reply (c : connection) (nextMessages : list ChatMessage)
    (assistantText : value) (text : jsstring) (s : ChatState) (w : W) :
  ToString assistantText = Some text ->
  exec E (reply c nextMessages assistantText) s w
  = {| final_state :=
         (idle E (length (chunks_of text))
            {| messages := nextMessages ++ [assistant_turn text] |} w).1;
       final_world :=
         (idle E (length (chunks_of text))
            {| messages := nextMessages ++ [assistant_turn text] |} w).2;
       trace :=
         Persisted {| messages := nextMessages ++ [assistant_turn text] |}
           :: Sent c assistant_start
           :: chunk_events c (chunks_of text)
           ++ [Sent c (assistant_done text); Sent c (assistant_reply text)];
       returned := Some tt |}.
Proof.
  intros Htext.
  pose proof (exec_stream c (chunks_of text)
    {| messages := nextMessages ++ [assistant_turn text] |} w) as Hrun.
  unfold reply. rewrite Htext, chunkByWords_3. simpl. simpl in Hrun.
  unfold mbind, prog_bind, assistant_turn in *.
  rewrite exec_bind, Hrun. reflexivity.
Qed.

(** When [String(assistantText)] throws, the handler ends there. *)
Lemma exec_reply_throws (c : connection) (nextMessages : list ChatMessage)
    (assistantText : value) (s : ChatState) (w : W) :
  ToString assistantText = None ->
  exec E (reply c nextMessages assistantText) s w
  = {| final_state := s; final_world := w; trace := [Raised]; returned := None |}.
Proof. intros Htext. unfold reply. by rewrite Htext. Qed.

Lemma image_data_url_nonempty (s : jsstring) :
  image_data_url_test s = true -> truthy_string s = true.
Proof. by destruct s. Qed.

Lemma accepted_image_truthy (v : value) (url : jsstring) :
  accepted_image v = Some url -> truthy_string url = true.
Proof.
  unfold accepted_image, isImageDataUrl. destruct v; try done.
  destruct (image_data_url_test s) eqn:Htest; [|done].
  intros [= <-]. by apply image_data_url_nonempty.
Qed.

Lemma user_frame_image (frame userText : jsstring) (image : option jsstring) :
  user_frame frame userText image ->
  truthy_opt image = match image with Some _ => true | None => false end.
Proof.
  intros (payload & content & _ & _ & _ & _ & Himage & _).
  destruct image as [url|]; [|done]. simpl. by eapply accepted_image_truthy.
Qed.

Lemma not_reset : bool_decide (lit "user" = lit "reset") = false.
Proof. reflexivity. Qed.

(** A user frame: the user turn is persisted on top of the state read, and
    the handler is suspended at the primary call. *)
Lemma exec_user_frame (c : connection) (frame userText : jsstring)
    (image : option jsstring) (s : ChatState) (w : W) :
  user_frame frame userText image ->
  exec E (onMessage c frame) s w
  = exec E
      (setState {| messages := messages s ++ [userMessage_of userText image] |};;
       outcome ←
         AI_run (primary_model image)
           (primary_inputs image (messages s ++ [userMessage_of userText image]));
       after_primary c userText image
         (messages s ++ [userMessage_of userText image]) outcome)
      s w.
Proof.
  intros Hframe. pose proof (user_frame_image _ _ _ Hframe) as Htruthy.
  destruct Hframe as (payload & content & Hparse & Htype & Hcontent & -> & -> & Hsome).
  unfold onMessage. rewrite Hparse, Htype, not_reset.
  rewrite bool_decide_true by done. rewrite Hcontent.
  unfold onUserPayload.
  set (image := accepted_image (get payload (lit "imageDataUrl"))) in *.
  assert (negb (truthy_string (String_trim content)) && negb (truthy_opt image) = false)
    as ->; [|done].
  rewrite Htruthy. destruct Hsome as [Htext|Himage].
  - by destruct (String_trim content).
  - destruct image; [apply andb_false_r|done].
Qed.

Lemma exec_user_frame_settled (c : connection) (frame userText : jsstring)
    (image : option jsstring) (s : ChatState) (w : W)
    (outcome : settled) (w1 : W) (s1 : ChatState) (w2 : W) :
  user_frame frame userText image ->
  AI_answer E w (primary_model image)
    (primary_inputs image (messages s ++ [userMessage_of userText image]))
  = (outcome, w1) ->
  meanwhile E w1 {| messages := messages s ++ [userMessage_of userText image] |}
  = (s1, w2) ->
  exec E (onMessage c frame) s w
  = logged (Persisted {| messages := messages s ++ [userMessage_of userText image] |})
      (logged
         (Called (primary_model image)
            (primary_inputs image (messages s ++ [userMessage_of userText image]))
            outcome)
         (exec E
            (after_primary c userText image
               (messages s ++ [userMessage_of userText image]) outcome)
            s1 w2)).
Proof.
  intros Hframe Hanswer Hmeanwhile.
  rewrite (exec_user_frame c frame userText image s w Hframe).
  simpl. by rewrite Hanswer, Hmeanwhile.
Qed.

(** C9. A frame that JSON.parse rejects: nothing is sent, nothing is
    persisted, and the state is the one before. *)
Theorem unparsable_frame_ignored (c : connection) (frame : jsstring)
    (s : ChatState) (w : W) :
  JSON_parse frame = None ->
  exec E (onMessage c frame) s w
  = {| final_state := s; final_world := w; trace := []; returned := Some tt |}.
Proof. intros Hparse. unfold onMessage. by rewrite Hparse. Qed.

(** C5. A frame whose type is "reset": the empty sequence is persisted,
    one history frame with an empty list is sent, and that is all the
    handler does; no model call is made. *)
Theorem reset_clears_history (c : connection) (frame : jsstring)
    (payload : value) (s : ChatState) (w : W) :
  JSON_parse frame = Some payload ->
  get payload (lit "type") = VStr (lit "reset") ->
  exec E (onMessage c frame) s w
  = {| final_state := {| messages := [] |}; final_world := w;
       trace := [Persisted {| messages := [] |}; Sent c (history [])];
       returned := Some tt |}
  /\ calls (trace (exec E (onMessage c frame) s w)) = [].
Proof.
  intros Hparse Htype. unfold onMessage. rewrite Hparse, Htype.
  by rewrite bool_decide_true by done.
Qed.

(** C4. onConnect sends one history frame, which holds the last
    min(50, length) turns of the stored history in their order, and it
    persists nothing and leaves the state as it was. *)
Theorem onConnect_sends_recent_history (c : connection) (s : ChatState) (w : W) :
  exec E (onConnect c) s w
  = {| final_state := s; final_world := w;
       trace := [Sent c (history (drop (length (messages s) - 50) (messages s)))];
       returned := Some tt |}
  /\ length (drop (length (messages s) - 50) (messages s))
     = Nat.min 50 (length (messages s))
  /\ take (length (messages s) - 50) (messages s)
       ++ drop (length (messages s) - 50) (messages s)
     = messages s.
Proof.
  split; [|split].
  - unfold onConnect. simpl. change (-50)%Z with (- Z.of_nat 50)%Z.
    by rewrite Array_slice_last by lia.
  - rewrite length_drop. lia.
  - apply take_drop.
Qed.

Lemma chunk_events_cons (c : connection) (chunk : jsstring) (chunks : list jsstring) :
  chunk_events c (chunk :: chunks)
  = Sent c (assistant_chunk chunk) :: Slept 24 :: chunk_events c chunks.
Proof. reflexivity. Qed.

Lemma calls_chunk_events (c : connection) (chunks : list jsstring) :
  calls (chunk_events c chunks) = [].
Proof. induction chunks as [|chunk chunks IH]; [done|]. exact IH. Qed.

Lemma persisted_chunk_events (c : connection) (chunks : list jsstring) :
  persisted (chunk_events c chunks) = [].
Proof. induction chunks as [|chunk chunks IH]; [done|]. exact IH. Qed.

Lemma sent_chunk_events (c : connection) (chunks : list jsstring) :
  sent (chunk_events c chunks) = (fun chunk => (c, assistant_chunk chunk)) <$> chunks.
Proof.
  induction chunks as [|chunk chunks IH]; [done|].
  rewrite chunk_events_cons, fmap_cons, <- IH. reflexivity.
Qed.

(** The projections of a trace, event by event. *)
Lemma persisted_cons (e : event) (t : list event) :
  persisted (e :: t)
  = match e with Persisted s => s :: persisted t | _ => persisted t end.
Proof. by destruct e. Qed.

Lemma sent_cons (e : event) (t : list event) :
  sent (e :: t)
  = match e with Sent c frame => (c, frame) :: sent t | _ => sent t end.
Proof. by destruct e. Qed.

Lemma calls_cons (e : event) (t : list event) :
  calls (e :: t)
  = match e with Called model inputs _ => (model, inputs) :: calls t | _ => calls t end.
Proof. by destruct e. Qed.

Lemma reply_facts (c : connection) (nextMessages : list ChatMessage)
    (assistantText : value) (text : jsstring) (s : ChatState) (w : W) :
  ToString assistantText = Some text ->
  returned (exec E (reply c nextMessages assistantText) s w) = Some tt
  /\ persisted (trace (exec E (reply c nextMessages assistantText) s w))
     = [{| messages := nextMessages ++ [assistant_turn text] |}]
  /\ sent (trace (exec E (reply c nextMessages assistantText) s w))
     = (c, assistant_start)
         :: ((fun chunk => (c, assistant_chunk chunk)) <$> chunks_of text)
         ++ [(c, assistant_done text); (c, assistant_reply text)]
  /\ calls (trace (exec E (reply c nextMessages assistantText) s w)) = [].
Proof.
  intros Htext. rewrite (exec_reply _ _ _ text) by done. simpl trace. simpl returned.
  unfold persisted, sent, calls. simpl. rewrite !omap_app.
  fold (persisted (chunk_events c (chunks_of text))).
  fold (sent (chunk_events c (chunks_of text))).
  fold (calls (chunk_events c (chunks_of text))).
  by rewrite persisted_chunk_events, sent_chunk_events, calls_chunk_events.
Qed.

(** What follows the [try] statement either replies or throws. *)
Lemma reply_cases (c : connection) (nextMessages : list ChatMessage)
    (assistantText : value) (s : ChatState) (w : W) :
  (exists text,
     ToString assistantText = Some text
     /\ returned (exec E (reply c nextMessages assistantText) s w) = Some tt
     /\ persisted (trace (exec E (reply c nextMessages assistantText) s w))
        = [{| messages := nextMessages ++ [assistant_turn text] |}]
     /\ sent (trace (exec E (reply c nextMessages assistantText) s w))
        = (c, assistant_start)
            :: ((fun chunk => (c, assistant_chunk chunk)) <$> chunks_of text)
            ++ [(c, assistant_done text); (c, assistant_reply text)]
     /\ calls (trace (exec E (reply c nextMessages assistantText) s w)) = [])
  \/ (ToString assistantText = None
      /\ exec E (reply c nextMessages assistantText) s w
         = {| final_state := s; final_world := w; trace := [Raised]; returned := None |}).
Proof.
  destruct (ToString assistantText) as [text|] eqn:Htext.
  - left. exists text. split; [done|]. by apply reply_facts.
  - right. split; [done|]. by apply exec_reply_throws.
Qed.

(** C6, as amended. The primary call is rejected with an error whose text
    the handler obtains (the message of an Error, or String of another
    thrown value, when String returns), and the fallback does not apply (no
    image was attached, or the text does not mention the license prompt):
    the retry notice is sent in an assistant_done frame and in an assistant
    frame, the handler returns, and the only state it has persisted is the
    history with the user turn; no assistant turn is persisted. *)
Theorem generic_failure_sends_retry_notice (c : connection)
    (frame userText : jsstring) (image : option jsstring)
    (s : ChatState) (w : W) (err : thrown) (msg : jsstring)
    (w1 : W) (s1 : ChatState) (w2 : W) :
  user_frame frame userText image ->
  AI_answer E w (primary_model image)
    (primary_inputs image (messages s ++ [userMessage_of userText image]))
  = (Rejected err, w1) ->
  meanwhile E w1 {| messages := messages s ++ [userMessage_of userText image] |}
  = (s1, w2) ->
  error_message err = Some msg ->
  image = None \/ String_includes (lit "submit the prompt 'agree'") msg = false ->
  exec E (onMessage c frame) s w
  = {| final_state := s1; final_world := w2;
       trace :=
         [Persisted {| messages := messages s ++ [userMessage_of userText image] |};
          Called (primary_model image)
            (primary_inputs image (messages s ++ [userMessage_of userText image]))
            (Rejected err);
          Sent c (assistant_done (lit "I hit an AI error. Please try again in a moment."));
          Sent c (assistant_reply (lit "I hit an AI error. Please try again in a moment."))];
       returned := Some tt |}
  /\ persisted (trace (exec E (onMessage c frame) s w))
     = [{| messages := messages s ++ [userMessage_of userText image] |}].
Proof.
  intros Hframe Hanswer Hmeanwhile Hmsg Hgeneric.
  rewrite (exec_user_frame_settled c frame userText image s w _ _ _ _
             Hframe Hanswer Hmeanwhile).
  assert (truthy_opt image && String_includes (lit "submit the prompt 'agree'") msg
          = false) as Hcond.
  { destruct Hgeneric as [->| ->]; [done|apply andb_false_r]. }
  unfold after_primary. rewrite Hmsg, Hcond. by split.
Qed.

(** C7. An image was attached and the primary call is rejected with an
    error whose message mentions the license prompt: the handler makes
    exactly one more call, to the fallback vision model, with one prompt
    string (the system instruction, a blank line, "User request: " and the
    user text or its placeholder) and the image; if this call is rejected
    too, the license notice is sent in an assistant_done frame and in an
    assistant frame and the handler returns. *)
Theorem license_failure_falls_back_once (c : connection)
    (frame userText url : jsstring) (s : ChatState) (w : W) (err : thrown)
    (msg : jsstring) (w1 : W) (s1 : ChatState) (w2 : W) (second : settled) (w3 : W)
    (s2 : ChatState) (w4 : W) :
  user_frame frame userText (Some url) ->
  AI_answer E w VISION_MODEL
    (primary_inputs (Some url) (messages s ++ [userMessage_of userText (Some url)]))
  = (Rejected err, w1) ->
  error_message err = Some msg ->
  String_includes (lit "submit the prompt 'agree'") msg = true ->
  meanwhile E w1 {| messages := messages s ++ [userMessage_of userText (Some url)] |}
  = (s1, w2) ->
  AI_answer E w2 VISION_FALLBACK_MODEL
    (PromptInputs
       (system ++ [10; 10]%N ++ lit "User request: "
          ++ (if truthy_string userText then userText else lit "Describe this image."))
       url)
  = (second, w3) ->
  meanwhile E w3 s1 = (s2, w4) ->
  calls (trace (exec E (onMessage c frame) s w))
  = [(VISION_MODEL,
      primary_inputs (Some url) (messages s ++ [userMessage_of userText (Some url)]));
     (VISION_FALLBACK_MODEL,
      PromptInputs
        (system ++ [10; 10]%N ++ lit "User request: "
           ++ (if truthy_string userText then userText else lit "Describe this image."))
        url)]
  /\ (forall err2, second = Rejected err2 ->
      exec E (onMessage c frame) s w
      = {| final_state := s2; final_world := w4;
           trace :=
             [Persisted {| messages := messages s ++ [userMessage_of userText (Some url)] |};
              Called VISION_MODEL
                (primary_inputs (Some url)
                   (messages s ++ [userMessage_of userText (Some url)]))
                (Rejected err);
              Called VISION_FALLBACK_MODEL
                (PromptInputs
                   (system ++ [10; 10]%N ++ lit "User request: "
                      ++ (if truthy_string userText then userText
                          else lit "Describe this image."))
                   url)
                (Rejected err2);
              Sent c (assistant_done (lit "Image analysis is currently unavailable for this account. For Llama 3.2 vision, run one prompt with text 'agree' in Workers AI to accept the license, then try again."));
              Sent c (assistant_reply (lit "Image analysis is currently unavailable for this account. For Llama 3.2 vision, run one prompt with text 'agree' in Workers AI to accept the license, then try again."))];
           returned := Some tt |}).
Proof.
  change (PromptInputs _ url) with (fallback_inputs userText url).
  intros Hframe Hanswer Hmsg Hlicense Hmeanwhile Hsecond Hmeanwhile2.
  pose proof (user_frame_image _ _ _ Hframe) as Htruthy. simpl in Htruthy.
  assert (primary_model (Some url) = VISION_MODEL) as Hmodel.
  { unfold primary_model. simpl. by rewrite Htruthy. }
  rewrite <- Hmodel in Hanswer.
  rewrite (exec_user_frame_settled c frame userText (Some url) s w _ _ _ _
             Hframe Hanswer Hmeanwhile).
  rewrite Hmodel.
  unfold after_primary. rewrite Hmsg. simpl truthy_opt. rewrite Htruthy, Hlicense.
  simpl. rewrite Hsecond, Hmeanwhile2.
  split.
  - destruct second as [fallbackResp|err2]; [|done].
    unfold logged. cbn [trace]. rewrite !calls_cons.
    destruct (reply_cases c (messages s ++ [userMessage_of userText (Some url)])
                (fallback_text fallbackResp) s2 w4)
      as [(text & _ & _ & _ & _ & ->)|[_ ->]]; done.
  - by intros err2 ->.
Qed.

(** The run of a user frame whose primary call is fulfilled with a reply
    that [String] converts to [text]. [s1], the state that the other
    handlers left when the call completed, does not occur in the result. *)
Lemma exec_user_frame_fulfilled (c : connection) (frame userText : jsstring)
    (image : option jsstring) (s : ChatState) (w : W) (aiResp : value)
    (text : jsstring) (w1 : W) (s1 : ChatState) (w2 : W) :
  user_frame frame userText image ->
  AI_answer E w (primary_model image)
    (primary_inputs image (messages s ++ [userMessage_of userText image]))
  = (Fulfilled aiResp, w1) ->
  meanwhile E w1 {| messages := messages s ++ [userMessage_of userText image] |}
  = (s1, w2) ->
  ToString (primary_text aiResp) = Some text ->
  exec E (onMessage c frame) s w
  = {| final_state :=
         (idle E (length (chunks_of text))
            {| messages :=
                 (messages s ++ [userMessage_of userText image])
                   ++ [assistant_turn text] |} w2).1;
       final_world :=
         (idle E (length (chunks_of text))
            {| messages :=
                 (messages s ++ [userMessage_of userText image])
                   ++ [assistant_turn text] |} w2).2;
       trace :=
         Persisted {| messages := messages s ++ [userMessage_of userText image] |}
           :: Called (primary_model image)
                (primary_inputs image (messages s ++ [userMessage_of userText image]))
                (Fulfilled aiResp)
           :: Persisted
                {| messages :=
                     (messages s ++ [userMessage_of userText image])
                       ++ [assistant_turn text] |}
           :: Sent c assistant_start
           :: chunk_events c (chunks_of text)
           ++ [Sent c (assistant_done text); Sent c (assistant_reply text)];
       returned := Some tt |}.
Proof.
  intros Hframe Hanswer Hmeanwhile Htext.
  rewrite (exec_user_frame_settled c frame userText image s w _ _ _ _
             Hframe Hanswer Hmeanwhile).
  unfold after_primary. by rewrite (exec_reply _ _ _ text) by done.
Qed.

(** The three ways in which the handler of a user frame ends, in every
    environment: with a reply, persisted on top of the captured sequence
    and streamed; with a notice, after a rejected model call, and with no
    other state persisted than the history with the user turn; or by
    throwing, when [String] cannot convert the reply or the error, with
    the same single state persisted and no frame sent. *)
Lemma exec_user_frame_cases (c : connection) (frame userText : jsstring)
    (image : option jsstring) (s : ChatState) (w : W) :
  user_frame frame userText image ->
  (returned (exec E (onMessage c frame) s w) = Some tt
   /\ exists text,
        persisted (trace (exec E (onMessage c frame) s w))
        = [{| messages := messages s ++ [userMessage_of userText image] |};
           {| messages :=
                (messages s ++ [userMessage_of userText image]) ++ [assistant_turn text] |}]
        /\ sent (trace (exec E (onMessage c frame) s w))
           = (c, assistant_start)
               :: ((fun chunk => (c, assistant_chunk chunk)) <$> chunks_of text)
               ++ [(c, assistant_done text); (c, assistant_reply text)])
  \/ (returned (exec E (onMessage c frame) s w) = Some tt
      /\ persisted (trace (exec E (onMessage c frame) s w))
         = [{| messages := messages s ++ [userMessage_of userText image] |}]
      /\ call_failed (trace (exec E (onMessage c frame) s w))
      /\ exists notice,
           sent (trace (exec E (onMessage c frame) s w))
           = [(c, assistant_done notice); (c, assistant_reply notice)])
  \/ (returned (exec E (onMessage c frame) s w) = None
      /\ threw (trace (exec E (onMessage c frame) s w)) = true
      /\ persisted (trace (exec E (onMessage c frame) s w))
         = [{| messages := messages s ++ [userMessage_of userText image] |}]
      /\ sent (trace (exec E (onMessage c frame) s w)) = []).
Proof.
  intros Hframe.
  destruct (AI_answer E w (primary_model image)
              (primary_inputs image (messages s ++ [userMessage_of userText image])))
    as [r w1] eqn:Hanswer.
  destruct (meanwhile E w1 {| messages := messages s ++ [userMessage_of userText image] |})
    as [s1 w2] eqn:Hmeanwhile.
  rewrite (exec_user_frame_settled c frame userText image s w _ _ _ _
             Hframe Hanswer Hmeanwhile).
  destruct r as [aiResp|err]; unfold after_primary.
  - destruct (reply_cases c (messages s ++ [userMessage_of userText image])
                (primary_text aiResp) s1 w2)
      as [(text & _ & Hret & Hpersisted & Hsent & _)|[_ Hthrows]].
    + left. unfold logged. cbn [trace returned]. split; [done|]. exists text.
      rewrite !persisted_cons, !sent_cons. by rewrite Hpersisted, Hsent.
    + right. right. rewrite Hthrows. unfold logged. cbn [trace returned].
      rewrite !persisted_cons, !sent_cons. done.
  - assert (forall rest,
      call_failed
        (Persisted {| messages := messages s ++ [userMessage_of userText image] |}
           :: Called (primary_model image)
                (primary_inputs image (messages s ++ [userMessage_of userText image]))
                (Rejected err) :: rest)) as Hfailed.
    { intros rest. eexists _, _, _. apply list_elem_of_further, list_elem_of_here. }
    destruct (error_message err) as [msg|].
    2:{ right. right. unfold logged. cbn [exec trace returned].
        rewrite !persisted_cons, !sent_cons. done. }
    destruct (truthy_opt image && String_includes (lit "submit the prompt 'agree'") msg).
    + simpl.
      destruct (AI_answer E w2 VISION_FALLBACK_MODEL
                  (fallback_inputs userText (default [] image))) as [r2 w3].
      destruct (meanwhile E w3 s1) as [s2 w4].
      destruct r2 as [fallbackResp|err2].
      * destruct (reply_cases c (messages s ++ [userMessage_of userText image])
                    (fallback_text fallbackResp) s2 w4)
          as [(text & _ & Hret & Hpersisted & Hsent & _)|[_ Hthrows]].
        -- left. unfold logged. cbn [trace returned]. split; [done|]. exists text.
           rewrite !persisted_cons, !sent_cons. by rewrite Hpersisted, Hsent.
        -- right. right. rewrite Hthrows. unfold logged. cbn [trace returned].
           rewrite !persisted_cons, !sent_cons. done.
      * unfold logged. simpl. right. left. split; [done|].
        split; [done|]. split; [apply Hfailed|]. by exists LICENSE_NOTICE.
    + unfold logged. simpl. right. left. split; [done|].
      split; [done|]. split; [apply Hfailed|]. by exists RETRY_NOTICE.
Qed.

(** The states that the handler of a user frame persists. *)
Lemma user_frame_persisted (c : connection) (frame userText : jsstring)
    (image : option jsstring) (s : ChatState) (w : W) :
  user_frame frame userText image ->
  persisted (trace (exec E (onMessage c frame) s w))
  = [{| messages := messages s ++ [userMessage_of userText image] |}]
  \/ exists text,
       persisted (trace (exec E (onMessage c frame) s w))
       = [{| messages := messages s ++ [userMessage_of userText image] |};
          {| messages :=
               (messages s ++ [userMessage_of userText image]) ++ [assistant_turn text] |}].
Proof.
  intros Hframe.
  destruct (exec_user_frame_cases c frame userText image s w Hframe)
    as [(_ & text & Hpersisted & _)|[(_ & Hpersisted & _)|(_ & _ & Hpersisted & _)]].
  - right. by exists text.
  - by left.
  - by left.
Qed.

(** C8. A user message with an accepted image goes to the vision model,
    with every turn of the context (the last twelve turns) rendered by
    toAiMessage; a user message without one goes to the text model, and
    every turn of the context is rendered as plain text, whatever image
    the stored turns carry. *)
Theorem image_selects_the_model (c : connection) (frame userText : jsstring)
    (image : option jsstring) (s : ChatState) (w : W) :
  user_frame frame userText image ->
  (image <> None ->
   exists r rest,
     trace (exec E (onMessage c frame) s w)
     = Persisted {| messages := messages s ++ [userMessage_of userText image] |}
         :: Called VISION_MODEL
              (ChatInputs
                 (system_turn
                    :: (toAiMessage
                          <$> drop (length (messages s ++ [userMessage_of userText image]) - 12)
                                (messages s ++ [userMessage_of userText image])))
                 512) r
         :: rest)
  /\ (image = None ->
      exists r rest,
        trace (exec E (onMessage c frame) s w)
        = Persisted {| messages := messages s ++ [userMessage_of userText image] |}
            :: Called TEXT_MODEL
                 (ChatInputs
                    (system_turn
                       :: ((fun m => {| ai_role := chat (role m);
                                        ai_content := PlainText (content m) |})
                             <$> drop (length (messages s ++ [userMessage_of userText image]) - 12)
                                   (messages s ++ [userMessage_of userText image])))
                    512) r
            :: rest).
Proof.
  intros Hframe. pose proof (user_frame_image _ _ _ Hframe) as Htruthy.
  destruct (AI_answer E w (primary_model image)
              (primary_inputs image (messages s ++ [userMessage_of userText image])))
    as [r w1] eqn:Hanswer.
  destruct (meanwhile E w1 {| messages := messages s ++ [userMessage_of userText image] |})
    as [s1 w2] eqn:Hmeanwhile.
  rewrite (exec_user_frame_settled c frame userText image s w _ _ _ _
             Hframe Hanswer Hmeanwhile).
  unfold primary_model, primary_inputs. rewrite Htruthy.
  change (-12)%Z with (- Z.of_nat 12)%Z. rewrite Array_slice_last by lia.
  split; intros Himage.
  - destruct image; [|done]. by eexists _, _.
  - subst image. by eexists _, _.
Qed.

(** C2. Whenever the handler of a user frame persists a reply [text]
    (the primary or the fallback call was fulfilled), the frames it sends
    are: one assistant_start; one assistant_chunk for each chunk of
    chunkByWords(text, 3), which returns; one assistant_done and one
    assistant frame, each with the whole text. The chunks are the groups of
    three consecutive words of the text, in their order, the last group
    holding what is left, each group joined by single spaces and followed
    by a space; a text without a word is its own single chunk; seven words
    make three chunks (words 1-3, 4-6 and 7). *)
Theorem reply_is_streamed_in_chunks (c : connection) (frame userText : jsstring)
    (image : option jsstring) (s : ChatState) (w : W) (text : jsstring) :
  user_frame frame userText image ->
  {| messages :=
       (messages s ++ [userMessage_of userText image])
         ++ [{| role := assistant; content := text; imageDataUrl := None |}] |}
    ∈ persisted (trace (exec E (onMessage c frame) s w)) ->
  exists chunks,
    chunkByWords text 3 = Some chunks
    /\ sent (trace (exec E (onMessage c frame) s w))
       = (c, assistant_start)
           :: ((fun chunk => (c, assistant_chunk chunk)) <$> chunks)
           ++ [(c, assistant_done text); (c, assistant_reply text)]
    /\ returned (exec E (onMessage c frame) s w) = Some tt
    /\ (words_of text = [] -> chunks = [text])
    /\ (words_of text <> [] ->
        chunks
        = (fun group => Array_join (lit " ") group ++ lit " ")
            <$> word_groups 3 (words_of text))
    /\ concat (word_groups 3 (words_of text)) = words_of text
    /\ Forall (fun group => (1 <= length group <= 3)%nat) (word_groups 3 (words_of text))
    /\ (forall x1 x2 x3 x4 x5 x6 x7,
        words_of text = [x1; x2; x3; x4; x5; x6; x7] ->
        chunks = [x1 ++ lit " " ++ x2 ++ lit " " ++ x3 ++ lit " ";
                  x4 ++ lit " " ++ x5 ++ lit " " ++ x6 ++ lit " ";
                  x7 ++ lit " "]).
Proof.
  intros Hframe Hin.
  destruct (exec_user_frame_cases c frame userText image s w Hframe)
    as [(Hret & text' & Hpersisted & Hsent)|Hnone].
  2:{ exfalso.
      assert (persisted (trace (exec E (onMessage c frame) s w))
              = [{| messages := messages s ++ [userMessage_of userText image] |}])
        as Hpersisted by (by destruct Hnone as [(_ & ? & _)|(_ & _ & ? & _)]).
      rewrite Hpersisted in Hin. apply list_elem_of_singleton in Hin.
      apply (f_equal (fun st => length (messages st))) in Hin.
      simpl in Hin. rewrite !length_app in Hin. simpl in Hin. lia. }
  rewrite Hpersisted in Hin.
  - assert (text' = text) as ->.
    { apply elem_of_cons in Hin as [Heq|Hin].
      - apply (f_equal (fun st => length (messages st))) in Heq.
        simpl in Heq. rewrite !length_app in Heq. simpl in Heq. lia.
      - apply list_elem_of_singleton in Hin. injection Hin as Heq.
        apply app_inv_head in Heq. by injection Heq. }
    exists (chunks_of text). split; [apply chunkByWords_3|].
    split; [exact Hsent|]. split; [exact Hret|].
    unfold chunks_of. split; [by intros ->|]. split; [|split; [|split]].
    + intros Hwords. by destruct (words_of text).
    + apply word_groups_concat. lia.
    + apply word_groups_sizes. lia.
    + intros x1 x2 x3 x4 x5 x6 x7 Hwords.
      pose proof (chunkByWords_seven _ _ _ _ _ _ _ _ Hwords) as Hseven.
      rewrite chunkByWords_3 in Hseven. unfold chunks_of in Hseven.
      by injection Hseven.
Qed.


Lemma count_role_app (r : Role) (l l' : list ChatMessage) :
  count_role r (l ++ l') = (count_role r l + count_role r l')%nat.
Proof. unfold count_role. by rewrite filter_app, length_app. Qed.

Lemma count_user_userMessage (userText : jsstring) (image : option jsstring) :
  count_role user [userMessage_of userText image] = 1%nat.
Proof. reflexivity. Qed.

Lemma count_assistant_userMessage (userText : jsstring) (image : option jsstring) :
  count_role assistant [userMessage_of userText image] = 0%nat.
Proof. reflexivity. Qed.

Lemma call_failed_app (t t' : list event) :
  call_failed t \/ call_failed t' -> call_failed (t ++ t').
Proof.
  intros [(model & inputs & err & Hin)|(model & inputs & err & Hin)];
    exists model, inputs, err; apply elem_of_app; [by left|by right].
Qed.

Lemma last_cons_default {A} (x y : A) (l : list A) :
  default x (last (y :: l)) = default y (last l).
Proof.
  destruct l as [|z l]; [done|]. change (last (y :: z :: l)) with (last (z :: l)).
  destruct (last (z :: l)) eqn:Hlast; [done|]. by apply last_None in Hlast.
Qed.

(** With no other handler running, a handler ends in the last state it
    persisted, or in the state it started from. *)
Lemma final_state_quiet {A} (p : prog A) (s : ChatState) (w : W) :
  quiet E ->
  final_state (exec E p s w) = default s (last (persisted (trace (exec E p s w)))).
Proof.
  intros Hquiet. revert s w.
  induction p as [a|k IH|s' k IH|c frame k IH|model inputs k IH|ms k IH| |];
    intros s w; simpl; try done.
  - rewrite persisted_cons, last_cons_default. apply IH.
  - destruct (AI_answer E w model inputs) as [r w1]. rewrite (Hquiet w1 s).
    simpl. rewrite persisted_cons. apply IH.
  - rewrite (Hquiet w s). simpl. rewrite persisted_cons. apply IH.
Qed.

Lemma threw_raised (t : list event) : threw t = true -> Raised ∈ t.
Proof.
  unfold threw. destruct (last t) as [e|] eqn:Hlast; [|done].
  destruct e; try done. intros _. apply last_Some in Hlast as [t' ->].
  apply elem_of_app. right. apply list_elem_of_here.
Qed.

(** One accepted user frame, handled with no other handler running: the
    handler ends, the history gains the user turn, and the assistant turn
    too unless a model call was rejected or the handler threw. *)
Lemma user_frame_step (c : connection) (frame : jsstring) (s : ChatState) (w : W) :
  quiet E -> valid_user_frame frame ->
  bool_decide (is_Some (returned (exec E (onMessage c frame) s w)))
    || threw (trace (exec E (onMessage c frame) s w)) = true
  /\ count_role user (messages (final_state (exec E (onMessage c frame) s w)))
     = S (count_role user (messages s))
  /\ (count_role assistant (messages (final_state (exec E (onMessage c frame) s w)))
      = S (count_role assistant (messages s))
      \/ (count_role assistant (messages (final_state (exec E (onMessage c frame) s w)))
          = count_role assistant (messages s)
          /\ (call_failed (trace (exec E (onMessage c frame) s w))
              \/ Raised ∈ trace (exec E (onMessage c frame) s w)))).
Proof.
  intros Hquiet (userText & image & Hframe).
  rewrite (final_state_quiet _ s w Hquiet).
  destruct (exec_user_frame_cases c frame userText image s w Hframe)
    as [(-> & text & -> & _)|[(-> & -> & Hfailed & _)|(-> & Hthrew & -> & _)]];
    cbn [last default from_option id messages];
    rewrite ?count_role_app, ?count_user_userMessage, ?count_assistant_userMessage.
  - split; [done|]. split; [unfold count_role; simpl; lia|].
    left. unfold count_role. simpl. lia.
  - split; [done|]. split; [lia|]. right. split; [lia|]. by left.
  - split; [by rewrite Hthrew|]. split; [lia|]. right. split; [lia|].
    right. by apply threw_raised.
Qed.

Lemma deliver_all_counts (c : connection) (frames : list jsstring) :
  quiet E -> Forall valid_user_frame frames ->
  forall s w,
    returned (deliver_all E c frames s w) = Some tt
    /\ count_role user (messages (final_state (deliver_all E c frames s w)))
       = (count_role user (messages s) + length frames)%nat
    /\ (count_role assistant (messages (final_state (deliver_all E c frames s w)))
        <= count_role assistant (messages s) + length frames)%nat
    /\ ((count_role assistant (messages (final_state (deliver_all E c frames s w)))
         < count_role assistant (messages s) + length frames)%nat ->
        call_failed (trace (deliver_all E c frames s w))
        \/ Raised ∈ trace (deliver_all E c frames s w)).
Proof.
  intros Hquiet. induction 1 as [|frame frames Hframe _ IH]; intros s w.
  - simpl. repeat split; lia.
  - destruct (user_frame_step c frame s w Hquiet Hframe) as (Hend & Huser & Hassistant).
    simpl. rewrite Hend.
    destruct (IH (final_state (exec E (onMessage c frame) s w))
                 (final_world (exec E (onMessage c frame) s w)))
      as (Hret' & Huser' & Hle & Hfail).
    simpl. split; [done|]. split; [lia|].
    destruct Hassistant as [Hone|[Hnone Hfailed]].
    + split; [lia|]. intros Hlt. destruct Hfail as [Hfail|Hfail]; [lia| |].
      * left. apply call_failed_app. by right.
      * right. apply elem_of_app. by right.
    + split; [lia|]. intros _. destruct Hfailed as [Hfailed|Hraised].
      * left. apply call_failed_app. by left.
      * right. apply elem_of_app. by left.
Qed.

(** C1, as amended. N accepted user frames delivered one after the other
    from the initial state, each handled to its end before the next and
    with no other handler running: every handler ends, the persisted
    history holds exactly N user turns and at most N assistant turns, and
    it holds fewer than N assistant turns only if a model call was rejected
    or a handler threw (String could not convert the reply or the error). *)
Theorem user_frames_in_sequence_counts (c : connection) (frames : list jsstring) (w : W) :
  quiet E -> Forall valid_user_frame frames ->
  returned (deliver_all E c frames initialState w) = Some tt
  /\ count_role user (messages (final_state (deliver_all E c frames initialState w)))
     = length frames
  /\ (count_role assistant (messages (final_state (deliver_all E c frames initialState w)))
      <= length frames)%nat
  /\ ((count_role assistant (messages (final_state (deliver_all E c frames initialState w)))
       < length frames)%nat ->
      call_failed (trace (deliver_all E c frames initialState w))
      \/ Raised ∈ trace (deliver_all E c frames initialState w)).
Proof.
  intros Hquiet Hframes.
  exact (deliver_all_counts c frames Hquiet Hframes initialState w).
Qed.

End Handlers.

(** * Further properties

    ** isImageDataUrl *)

Lemma strip_prefix_Some (p s rest : jsstring) :
  strip_prefix p s = Some rest <-> s = p ++ rest.
Proof.
  revert s. induction p as [|a p IH]; intros s; simpl.
  - split; [by intros [= ->]|by intros ->].
  - destruct s as [|b s]; [done|].
    destruct (N.eqb_spec a b) as [->|Hne].
    + rewrite IH. split; [by intros ->|by intros [= ->]].
    + split; [done|]. intros [= <- _]. done.
Qed.

Lemma skip_media_subtype_split (s : jsstring) :
  exists run,
    s = run ++ skip_media_subtype s
    /\ Forall (fun c => is_media_subtype_unit c = true) run.
Proof.
  induction s as [|c s (run & Hs & Hrun)]; simpl.
  - by exists [].
  - destruct (is_media_subtype_unit c) eqn:Hc.
    + exists (c :: run). split; [simpl; by f_equal|by constructor].
    + by exists [].
Qed.

Lemma skip_media_subtype_run (run rest : jsstring) :
  Forall (fun c => is_media_subtype_unit c = true) run ->
  skip_media_subtype (run ++ lit ";base64," ++ rest) = lit ";base64," ++ rest.
Proof. induction 1 as [|c run Hc _ IH]; [done|]. simpl. by rewrite Hc. Qed.

(** X1. isImageDataUrl accepts exactly the strings made of "data:image/",
    a non-empty run of letters, digits, '.', '+' and '-', ";base64," and
    any rest; every value that is not a string is refused. *)
Theorem isImageDataUrl_shape `{Host} (v : value) :
  isImageDataUrl v = true
  <-> exists subtype rest,
        v = VStr (lit "data:image/" ++ subtype ++ lit ";base64," ++ rest)
        /\ subtype <> []
        /\ Forall (fun c => is_media_subtype_unit c = true) subtype.
Proof.
  split.
  - destruct v as [| | | |s| |]; try done. simpl. unfold image_data_url_test.
    destruct (strip_prefix (lit "data:image/") s) as [[|c tail]|] eqn:Hprefix; try done.
    apply strip_prefix_Some in Hprefix. intros [Hc Hbase]%andb_prop.
    apply bool_decide_eq_true in Hbase as [rest Hrest].
    apply strip_prefix_Some in Hrest.
    destruct (skip_media_subtype_split tail) as (run & Htail & Hrun).
    exists (c :: run), rest. split; [|split; [done|by constructor]].
    rewrite Hprefix, Htail, Hrest. reflexivity.
  - intros (subtype & rest & -> & Hne & Hall).
    unfold isImageDataUrl, image_data_url_test.
    destruct subtype as [|c run]; [done|].
    apply Forall_cons in Hall as [Hc Hrun].
    assert (strip_prefix (lit "data:image/")
              (lit "data:image/" ++ (c :: run) ++ lit ";base64," ++ rest)
            = Some ((c :: run) ++ lit ";base64," ++ rest)) as ->
      by by apply strip_prefix_Some.
    rewrite <- app_comm_cons, Hc, skip_media_subtype_run by done.
    apply bool_decide_eq_true. exists rest. by apply strip_prefix_Some.
Qed.

(** ** chunkByWords *)

(** X2. A text without a word (empty, or white space only) is returned as
    its own single chunk, unchanged, whatever the group size. *)
Theorem chunkByWords_without_words (text : jsstring) (wordsPerChunk : Z) :
  words_of text = [] -> chunkByWords text wordsPerChunk = Some [text].
Proof.
  intros Hwords. unfold chunkByWords, chunkByWords_fuel. by rewrite Hwords.
Qed.

(** X3. With a group size that is zero or negative and a text that has a
    word, the loop of chunkByWords never ends: no number of loop tests
    yields a result. *)
Theorem chunkByWords_never_returns (text : jsstring) (wordsPerChunk : Z) (fuel : nat) :
  words_of text <> [] -> (wordsPerChunk <= 0)%Z ->
  chunkByWords_fuel fuel text wordsPerChunk = None.
Proof.
  intros Hwords Hsize. unfold chunkByWords_fuel.
  by rewrite (chunk_loop_diverges _ wordsPerChunk Hwords Hsize fuel 0 []).
Qed.

(** X4. The chunks, one after the other, are the words of the text joined
    by single spaces and followed by one space: runs of white space are
    collapsed, leading white space is dropped. *)
Theorem chunks_normalise_spacing (text : jsstring) (wordsPerChunk : Z) :
  words_of text <> [] -> (0 < wordsPerChunk)%Z ->
  exists chunks,
    chunkByWords text wordsPerChunk = Some chunks
    /\ concat chunks = Array_join (lit " ") (words_of text) ++ lit " ".
Proof.
  intros Hwords Hpos.
  rewrite <- (Z2Nat.id wordsPerChunk) by lia.
  assert (0 < Z.to_nat wordsPerChunk)%nat as Hn by lia.
  rewrite chunkByWords_closed by done.
  destruct (words_of text) as [|w ws] eqn:Hw; [done|].
  eexists. split; [done|].
  rewrite concat_rendered by done. symmetry. by apply render_spaced.
Qed.

(** X5. For a positive group size [n] and a text with [len > 0] words there
    are [(len + n - 1) / n] chunks, and chunk [k] splits back into the words
    [k * n], ..., [k * n + n - 1] of the text (those that exist). *)
Theorem chunk_holds_its_group (text : jsstring) (n : nat) :
  words_of text <> [] -> (0 < n)%nat ->
  exists chunks,
    chunkByWords text (Z.of_nat n) = Some chunks
    /\ length chunks = ((length (words_of text) + n - 1) / n)%nat
    /\ forall k chunk,
         chunks !! k = Some chunk ->
         words_of chunk = take n (drop (k * n) (words_of text))
         /\ words_of chunk <> [].
Proof.
  intros Hwords Hn. rewrite chunkByWords_closed by done.
  destruct (words_of text) as [|w ws] eqn:Hw; [done|]. rewrite <- Hw.
  eexists. split; [done|]. unfold word_groups.
  split; [by rewrite !length_fmap, length_seq|].
  intros k chunk Hk. rewrite <- list_fmap_compose in Hk.
  apply list_lookup_fmap_Some in Hk as (j & -> & Hj).
  apply lookup_seq in Hj as [-> Hlt]. simpl in *.
  pose proof (group_nonempty (words_of text) n k Hn Hlt) as Hne.
  rewrite render_spaced by done.
  assert (Forall is_word (word_group n (words_of text) k)) as Hgroup.
  { unfold word_group. apply Forall_take, Forall_drop, words_of_are_words. }
  rewrite words_of_spaced by done. done.
Qed.

(** ** The reply text *)

(** X6. The reply text of the fallback call is computed like that of the
    primary call whenever one of [response], [result], [output_text] is
    truthy: [description] is only consulted when none of them is. *)
Theorem fallback_text_agrees_with_primary_text `{Host} (resp : value) :
  truthy (get resp (lit "response")) = true
  \/ truthy (get resp (lit "result")) = true
  \/ truthy (get resp (lit "output_text")) = true ->
  fallback_text resp = primary_text resp.
Proof.
  unfold fallback_text, primary_text, js_or.
  intros Hfield.
  destruct (truthy (get resp (lit "response"))) eqn:Hresponse; [done|].
  destruct (truthy (get resp (lit "result"))) eqn:Hresult; [done|].
  destruct (truthy (get resp (lit "output_text"))) eqn:Houtput; [done|].
  by destruct Hfield as [|[|]].
Qed.

(** X7. The reply text of a response object is its first truthy field
    among [response], [result], [output_text]; with none truthy it is
    [output_text] when that field is present and not null (an empty string,
    say), and JSON.stringify of the response otherwise. A response that is
    a string is its own reply text, also when empty. *)
Theorem reply_text_precedence `{Host} (props : list (jsstring * value)) (text : jsstring) :
  (truthy (get (VObj props) (lit "response")) = true ->
   primary_text (VObj props) = get (VObj props) (lit "response"))
  /\ (truthy (get (VObj props) (lit "response")) = false ->
      truthy (get (VObj props) (lit "result")) = true ->
      primary_text (VObj props) = get (VObj props) (lit "result"))
  /\ (truthy (get (VObj props) (lit "response")) = false ->
      truthy (get (VObj props) (lit "result")) = false ->
      get (VObj props) (lit "output_text") <> VUndefined ->
      get (VObj props) (lit "output_text") <> VNull ->
      primary_text (VObj props) = get (VObj props) (lit "output_text"))
  /\ (truthy (get (VObj props) (lit "response")) = false ->
      truthy (get (VObj props) (lit "result")) = false ->
      get (VObj props) (lit "output_text") = VUndefined
      \/ get (VObj props) (lit "output_text") = VNull ->
      primary_text (VObj props) = JSON_stringify (VObj props))
  /\ ToString (primary_text (VStr text)) = Some text.
Proof.
  unfold primary_text, js_or, js_and.
  change (truthy (VObj props)) with true. cbv iota.
  repeat split.
  - intros Hresponse. rewrite Hresponse.
    by destruct (get (VObj props) (lit "response")).
  - intros Hresponse Hresult. rewrite Hresponse, Hresult.
    by destruct (get (VObj props) (lit "result")).
  - intros Hresponse Hresult Hundefined Hnull. rewrite Hresponse, Hresult.
    by destruct (get (VObj props) (lit "output_text")).
  - intros Hresponse Hresult [Houtput|Houtput]; by rewrite Hresponse, Hresult, Houtput.
  - by destruct text.
Qed.

(** ** Every frame *)

Section EveryFrame.
Context `{Host} {W : Type} (E : Env W).

Lemma exec_reset_frame (c : connection) (frame : jsstring) (s : ChatState) (w : W) :
  is_reset_frame frame ->
  exec E (onMessage c frame) s w
  = {| final_state := {| messages := [] |}; final_world := w;
       trace := [Persisted {| messages := [] |}; Sent c (history [])];
       returned := Some tt |}.
Proof.
  intros (payload & Hparse & Htype). unfold onMessage. rewrite Hparse, Htype.
  by rewrite bool_decide_true by done.
Qed.

(** A frame is a reset, an accepted user frame, or a frame that the
    handler drops. *)
Lemma frame_cases (frame : jsstring) :
  is_reset_frame frame
  \/ valid_user_frame frame
  \/ forall c s w, exec E (onMessage c frame) s w = nothing_done s w.
Proof.
  destruct (JSON_parse frame) as [payload|] eqn:Hparse;
    [|right; right; intros c s w; unfold onMessage; by rewrite Hparse].
  destruct (get payload (lit "type")) as [| | | |type| |] eqn:Htype;
    try (right; right; intros c s w; unfold onMessage; by rewrite Hparse, Htype).
  destruct (decide (type = lit "reset")) as [->|Hreset]; [left; by exists payload|].
  right.
  destruct (decide (type = lit "user")) as [->|Huser];
    [|right; intros c s w; unfold onMessage; rewrite Hparse, Htype;
      by rewrite !bool_decide_false by done].
  destruct (get payload (lit "content")) as [| | | |content| |] eqn:Hcontent;
    try (right; intros c s w; unfold onMessage; rewrite Hparse, Htype, Hcontent;
         by rewrite bool_decide_false, bool_decide_true by done).
  destruct (negb (truthy_string (String_trim content))
            && negb (truthy_opt (accepted_image (get payload (lit "imageDataUrl")))))
    eqn:Hguard.
  - right. intros c s w. unfold onMessage. rewrite Hparse, Htype, Hcontent.
    rewrite bool_decide_false, bool_decide_true by done.
    unfold onUserPayload. by rewrite Hguard.
  - left. exists (String_trim content), (accepted_image (get payload (lit "imageDataUrl"))).
    exists payload, content. repeat split; try done.
    apply andb_false_iff in Hguard as [Htext|Himage].
    + left. by destruct (String_trim content).
    + right. by destruct (accepted_image (get payload (lit "imageDataUrl"))).
Qed.

(** Every handler ends: it returns, or it is the handler of an accepted
    user frame and throws before it has sent anything. *)
Lemma onMessage_ends (c : connection) (frame : jsstring) (s : ChatState) (w : W) :
  returned (exec E (onMessage c frame) s w) = Some tt
  \/ (valid_user_frame frame
      /\ returned (exec E (onMessage c frame) s w) = None
      /\ threw (trace (exec E (onMessage c frame) s w)) = true
      /\ sent (trace (exec E (onMessage c frame) s w)) = []).
Proof.
  destruct (frame_cases frame) as [Hreset|[(userText & image & Huser)|Hdropped]].
  - left. by rewrite exec_reset_frame.
  - destruct (exec_user_frame_cases E c frame userText image s w Huser)
      as [(Hret & _)|[(Hret & _)|(Hret & Hthrew & _ & Hsent)]]; [by left|by left|].
    right. split; [by exists userText, image|done].
  - left. by rewrite Hdropped.
Qed.

Lemma onMessage_ended (c : connection) (frame : jsstring) (s : ChatState) (w : W) :
  bool_decide (is_Some (returned (exec E (onMessage c frame) s w)))
    || threw (trace (exec E (onMessage c frame) s w)) = true.
Proof.
  destruct (onMessage_ends c frame s w) as [->|(_ & _ & -> & _)];
    [done|apply orb_true_r].
Qed.

(** X8. In an environment where every awaited call settles, onMessage ends
    for every frame and every state: it returns, or, for an accepted user
    frame only, it throws at a String conversion before any frame is sent.
    The call chunkByWords(finalText, 3) never loops. *)
Theorem onMessage_always_ends (c : connection) (frame : jsstring)
    (s : ChatState) (w : W) :
  returned (exec E (onMessage c frame) s w) = Some tt
  \/ (valid_user_frame frame
      /\ returned (exec E (onMessage c frame) s w) = None
      /\ threw (trace (exec E (onMessage c frame) s w)) = true
      /\ sent (trace (exec E (onMessage c frame) s w)) = []).
Proof. apply onMessage_ends. Qed.

(** X9. A frame is dropped (nothing sent, nothing persisted, no model
    call, state unchanged) exactly when it is neither a reset nor an
    accepted user frame: text that does not parse, another [type], a
    [content] that is no string, or blank text with no accepted image. *)
Theorem frame_dropped_iff (c : connection) (frame : jsstring) (s : ChatState) (w : W) :
  exec E (onMessage c frame) s w
  = {| final_state := s; final_world := w; trace := []; returned := Some tt |}
  <-> ~ is_reset_frame frame /\ ~ valid_user_frame frame.
Proof.
  split.
  - intros Hrun. split.
    + intros Hreset. rewrite exec_reset_frame in Hrun by done. discriminate Hrun.
    + intros (userText & image & Huser).
      destruct (user_frame_persisted E c frame userText image s w Huser)
        as [Hpersisted|(text & Hpersisted)];
        rewrite Hrun in Hpersisted; discriminate Hpersisted.
  - intros [Hreset Huser].
    destruct (frame_cases frame) as [?|[?|Hdropped]]; [done|done|apply Hdropped].
Qed.

(** X10. The user turn stored for an accepted user frame has a text that
    is not empty: the trimmed content, or "Describe this image." when the
    trimmed content is empty, which happens only with an accepted image.
    It carries the image exactly when isImageDataUrl accepted it. *)
Theorem stored_user_turn (c : connection) (frame userText : jsstring)
    (image : option jsstring) (s : ChatState) (w : W) :
  user_frame frame userText image ->
  exists turn rest,
    persisted (trace (exec E (onMessage c frame) s w))
    = {| messages := messages s ++ [turn] |} :: rest
    /\ role turn = user
    /\ content turn <> []
    /\ (content turn = userText
        \/ (userText = [] /\ image <> None /\ content turn = lit "Describe this image."))
    /\ imageDataUrl turn = image
    /\ (forall url, image = Some url -> isImageDataUrl (VStr url) = true).
Proof.
  intros Huser. exists (userMessage_of userText image).
  assert (exists rest,
    persisted (trace (exec E (onMessage c frame) s w))
    = {| messages := messages s ++ [userMessage_of userText image] |} :: rest)
    as [rest Hrest].
  { destruct (user_frame_persisted E c frame userText image s w Huser)
      as [->|(text & ->)]; by eexists. }
  exists rest. split; [exact Hrest|]. split; [done|].
  destruct Huser as (payload & content & _ & _ & _ & _ & Himage & Hsome).
  unfold userMessage_of. simpl. repeat split.
  - by destruct userText.
  - destruct userText as [|u userText]; [|by left].
    right. by destruct Hsome.
  - intros url Hurl. rewrite Hurl in Himage.
    unfold accepted_image in Himage.
    destruct (isImageDataUrl (get payload (lit "imageDataUrl"))) eqn:Htest; [|done].
    by destruct (get payload (lit "imageDataUrl")); try done; injection Himage as ->.
Qed.


End EveryFrame.

(** ** Sequences of frames *)

Lemma answers_follow_users_snoc_user (msgs : list ChatMessage) (turn : ChatMessage) :
  answers_follow_users msgs -> role turn = user ->
  answers_follow_users (msgs ++ [turn]).
Proof.
  intros Hmsgs Hrole i turn' Hi Hassistant.
  apply lookup_app_Some in Hi as [Hi|[_ Hi]].
  - destruct (Hmsgs i turn' Hi Hassistant) as (j & previous & -> & Hj & Hprev).
    exists j, previous. split; [done|]. split; [|done].
    by apply lookup_app_l_Some.
  - apply list_lookup_singleton_Some in Hi as [_ <-]. congruence.
Qed.

Lemma answers_follow_users_snoc_pair (msgs : list ChatMessage) (question answer : ChatMessage) :
  answers_follow_users msgs -> role question = user ->
  answers_follow_users (msgs ++ [question; answer]).
Proof.
  intros Hmsgs Hrole.
  pose proof (answers_follow_users_snoc_user msgs question Hmsgs Hrole) as Hnext.
  change [question; answer] with ([question] ++ [answer]). rewrite app_assoc.
  intros i turn Hi Hassistant.
  apply lookup_app_Some in Hi as [Hi|[Hlen Hi]].
  - destruct (Hnext i turn Hi Hassistant) as (j & previous & -> & Hj & Hprev).
    exists j, previous. split; [done|]. split; [|done].
    by apply lookup_app_l_Some.
  - apply list_lookup_singleton_Some in Hi as [Hzero _].
    rewrite length_app in Hlen, Hzero. simpl in Hlen, Hzero.
    exists (length msgs), question. split; [lia|]. split; [|done].
    rewrite <- app_assoc. simpl. by rewrite list_lookup_middle.
Qed.

Lemma userMessage_well_formed `{Host} (frame userText : jsstring) (image : option jsstring) :
  user_frame frame userText image -> well_formed_turn (userMessage_of userText image).
Proof.
  intros (payload & content & _ & _ & _ & _ & Himage & _).
  unfold well_formed_turn, userMessage_of. simpl. split.
  - by destruct userText.
  - intros url ->. unfold accepted_image, isImageDataUrl in Himage.
    destruct (get payload (lit "imageDataUrl")); try done.
    destruct (image_data_url_test s) eqn:Htest; [|done]. by injection Himage as ->.
Qed.

Section Sequences.
Context `{Host} {W : Type} (E : Env W).

(** The state in which the handler of a user frame ends when no other
    handler runs. *)
Lemma user_frame_final_state (c : connection) (frame userText : jsstring)
    (image : option jsstring) (s : ChatState) (w : W) :
  quiet E -> user_frame frame userText image ->
  final_state (exec E (onMessage c frame) s w)
  = {| messages := messages s ++ [userMessage_of userText image] |}
  \/ exists text,
       final_state (exec E (onMessage c frame) s w)
       = {| messages := messages s ++ [userMessage_of userText image; assistant_turn text] |}.
Proof.
  intros Hquiet Hframe. rewrite (final_state_quiet E _ s w Hquiet).
  destruct (user_frame_persisted E c frame userText image s w Hframe)
    as [->|(text & ->)].
  - by left.
  - right. exists text. cbn [last default from_option id]. by rewrite <- app_assoc.
Qed.

Lemma onMessage_keeps_well_formed (c : connection) (frame : jsstring)
    (s : ChatState) (w : W) :
  quiet E -> well_formed_history (messages s) ->
  well_formed_history (messages (final_state (exec E (onMessage c frame) s w))).
Proof.
  intros Hquiet [Hturns Hfollow].
  destruct (frame_cases E frame) as [Hreset|[(userText & image & Huser)|Hdropped]].
  - rewrite exec_reset_frame by done. simpl. split; [constructor|].
    intros i turn Hi. by rewrite lookup_nil in Hi.
  - pose proof (userMessage_well_formed frame userText image Huser) as Hturn.
    destruct (user_frame_final_state c frame userText image s w Hquiet Huser)
      as [->|[text ->]]; simpl.
    + split; [apply Forall_app; split; [done|by constructor]|].
      by apply answers_follow_users_snoc_user.
    + split; [apply Forall_app; split; [done|]; constructor; [done|]; constructor; [done|constructor]|].
      by apply answers_follow_users_snoc_pair.
  - by rewrite Hdropped.
Qed.

Lemma deliver_all_cons (c : connection) (frame : jsstring) (rest : list jsstring)
    (s : ChatState) (w : W) :
  deliver_all E c (frame :: rest) s w
  = {| final_state :=
         final_state (deliver_all E c rest
                        (final_state (exec E (onMessage c frame) s w))
                        (final_world (exec E (onMessage c frame) s w)));
       final_world :=
         final_world (deliver_all E c rest
                        (final_state (exec E (onMessage c frame) s w))
                        (final_world (exec E (onMessage c frame) s w)));
       trace :=
         trace (exec E (onMessage c frame) s w)
           ++ trace (deliver_all E c rest
                       (final_state (exec E (onMessage c frame) s w))
                       (final_world (exec E (onMessage c frame) s w)));
       returned :=
         returned (deliver_all E c rest
                     (final_state (exec E (onMessage c frame) s w))
                     (final_world (exec E (onMessage c frame) s w))) |}.
Proof. simpl. by rewrite (onMessage_ended E c frame s w). Qed.

Lemma deliver_all_returns (c : connection) (frames : list jsstring)
    (s : ChatState) (w : W) :
  returned (deliver_all E c frames s w) = Some tt.
Proof.
  revert s w. induction frames as [|frame frames IH]; intros s w; [done|].
  rewrite deliver_all_cons. apply IH.
Qed.

Lemma deliver_all_app (c : connection) (before after : list jsstring)
    (s : ChatState) (w : W) :
  deliver_all E c (before ++ after) s w
  = {| final_state :=
         final_state (deliver_all E c after
                        (final_state (deliver_all E c before s w))
                        (final_world (deliver_all E c before s w)));
       final_world :=
         final_world (deliver_all E c after
                        (final_state (deliver_all E c before s w))
                        (final_world (deliver_all E c before s w)));
       trace :=
         trace (deliver_all E c before s w)
           ++ trace (deliver_all E c after
                       (final_state (deliver_all E c before s w))
                       (final_world (deliver_all E c before s w)));
       returned :=
         returned (deliver_all E c after
                     (final_state (deliver_all E c before s w))
                     (final_world (deliver_all E c before s w))) |}.
Proof.
  revert s w. induction before as [|frame before IH]; intros s w.
  - simpl. by destruct (deliver_all E c after s w).
  - rewrite <- app_comm_cons, !deliver_all_cons, IH. cbn [final_state final_world trace returned].
    by rewrite app_assoc.
Qed.

(** X12. Frames of any kind delivered one after the other, with no other
    handler running, keep the history well formed: every user turn has a
    text that is not empty and an image only if isImageDataUrl accepts it,
    no assistant turn has an image, and every assistant turn comes right
    after a user turn. *)
Theorem history_stays_well_formed (c : connection) (frames : list jsstring)
    (s : ChatState) (w : W) :
  quiet E -> well_formed_history (messages s) ->
  well_formed_history (messages (final_state (deliver_all E c frames s w))).
Proof.
  intros Hquiet. revert s w. induction frames as [|frame frames IH]; intros s w Hs.
  - done.
  - rewrite deliver_all_cons. cbn [final_state].
    apply IH. by apply onMessage_keeps_well_formed.
Qed.

(** X13. A reset forgets what came before it: after the frames [before], a
    reset frame and the frames [after], the history is the one that
    [after] alone builds from the initial state, and every frame is handled
    to its end (its handler returns or throws; none hangs). *)
Theorem reset_forgets_earlier_frames (c : connection) (before after : list jsstring)
    (frame : jsstring) (s : ChatState) (w : W) :
  is_reset_frame frame ->
  final_state (deliver_all E c (before ++ frame :: after) s w)
  = final_state (deliver_all E c after initialState
                   (final_world (deliver_all E c before s w)))
  /\ returned (deliver_all E c (before ++ frame :: after) s w) = Some tt.
Proof.
  intros Hreset. split; [|apply deliver_all_returns].
  rewrite deliver_all_app. cbn [final_state].
  rewrite deliver_all_cons. cbn [final_state].
  by rewrite exec_reset_frame by done.
Qed.

End Sequences.

(** ** Model calls and frames *)

Section CallsAndFrames.
Context `{Host} {W : Type} (E : Env W).

(** The model calls of the handler of a user frame. *)
Lemma user_frame_calls (c : connection) (frame userText : jsstring)
    (image : option jsstring) (s : ChatState) (w : W) :
  user_frame frame userText image ->
  calls (trace (exec E (onMessage c frame) s w))
  = [(primary_model image,
      primary_inputs image (messages s ++ [userMessage_of userText image]))]
  \/ (truthy_opt image = true
      /\ calls (trace (exec E (onMessage c frame) s w))
         = [(primary_model image,
             primary_inputs image (messages s ++ [userMessage_of userText image]));
            (VISION_FALLBACK_MODEL, fallback_inputs userText (default [] image))]).
Proof.
  intros Hframe.
  destruct (AI_answer E w (primary_model image)
              (primary_inputs image (messages s ++ [userMessage_of userText image])))
    as [r w1] eqn:Hanswer.
  destruct (meanwhile E w1 {| messages := messages s ++ [userMessage_of userText image] |})
    as [s1 w2] eqn:Hmeanwhile.
  rewrite (exec_user_frame_settled E c frame userText image s w _ _ _ _
             Hframe Hanswer Hmeanwhile).
  unfold logged. cbn [trace]. rewrite !calls_cons.
  destruct r as [aiResp|err]; unfold after_primary.
  - left. by destruct (reply_cases E c (messages s ++ [userMessage_of userText image])
                         (primary_text aiResp) s1 w2)
      as [(text & _ & _ & _ & _ & ->)|[_ ->]].
  - destruct (error_message err) as [msg|]; [|by left].
    destruct (truthy_opt image) eqn:Himage; [|by left].
    destruct (String_includes (lit "submit the prompt 'agree'") msg); [|by left].
    right. split; [done|]. simpl.
    destruct (AI_answer E w2 VISION_FALLBACK_MODEL
                (fallback_inputs userText (default [] image))) as [r2 w3].
    destruct (meanwhile E w3 s1) as [s2 w4].
    unfold logged. cbn [trace]. rewrite calls_cons.
    destruct r2 as [fallbackResp|err2]; [|done].
    by destruct (reply_cases E c (messages s ++ [userMessage_of userText image])
                   (fallback_text fallbackResp) s2 w4)
      as [(text & _ & _ & _ & _ & ->)|[_ ->]].
Qed.

(** X14. The primary call of an accepted user frame carries the system
    instruction followed by at most twelve turns, the last twelve of the
    history with the new user turn, which comes last, with its image when
    it has one; the reply is limited to 512 tokens. *)
Theorem context_window_is_bounded (c : connection) (frame userText : jsstring)
    (image : option jsstring) (s : ChatState) (w : W) :
  user_frame frame userText image ->
  exists model context later,
    calls (trace (exec E (onMessage c frame) s w))
    = (model,
       ChatInputs ({| ai_role := system_role; ai_content := PlainText system |} :: context)
         512)
        :: later
    /\ length context = Nat.min 12 (S (length (messages s)))
    /\ last context
       = Some {| ai_role := chat user;
                 ai_content :=
                   match image with
                   | Some url => TextAndImage (content (userMessage_of userText image)) url
                   | None => PlainText (content (userMessage_of userText image))
                   end |}.
Proof.
  intros Hframe. pose proof (user_frame_image _ _ _ Hframe) as Htruthy.
  assert (content (userMessage_of userText image) <> []) as Hcontent.
  { unfold userMessage_of. simpl. by destruct userText. }
  exists (primary_model image).
  exists ((if truthy_opt image then toAiMessage else toTextOnlyMessage)
            <$> drop (length (messages s ++ [userMessage_of userText image]) - 12)
                  (messages s ++ [userMessage_of userText image])).
  assert (primary_inputs image (messages s ++ [userMessage_of userText image])
          = ChatInputs
              ({| ai_role := system_role; ai_content := PlainText system |}
                 :: ((if truthy_opt image then toAiMessage else toTextOnlyMessage)
                       <$> drop (length (messages s ++ [userMessage_of userText image]) - 12)
                             (messages s ++ [userMessage_of userText image])))
              512) as Hinputs.
  { unfold primary_inputs. change (-12)%Z with (- Z.of_nat 12)%Z.
    rewrite Array_slice_last by lia. by destruct (truthy_opt image). }
  assert (exists later,
    calls (trace (exec E (onMessage c frame) s w))
    = (primary_model image,
       primary_inputs image (messages s ++ [userMessage_of userText image])) :: later)
    as [later Hcalls].
  { destruct (user_frame_calls c frame userText image s w Hframe) as [->|[_ ->]];
      by eexists. }
  exists later. rewrite Hcalls, Hinputs. split; [done|].
  rewrite length_app. cbn [length]. split.
  - rewrite length_fmap, length_drop, length_app. cbn [length]. lia.
  - rewrite fmap_last, drop_app_le by lia. rewrite last_snoc. cbn [fmap option_fmap option_map].
    rewrite Htruthy. destruct image as [url|]; [|done].
    unfold toAiMessage.
    change (role (userMessage_of userText (Some url))) with user.
    change (imageDataUrl (userMessage_of userText (Some url))) with (Some url).
    cbv iota beta. simpl in Htruthy. rewrite Htruthy.
    by destruct (content (userMessage_of userText (Some url))).
Qed.

(** X15. A user frame without an accepted image makes exactly one model
    call, to the text model, whether the call is fulfilled or rejected; no
    frame ever makes more than two calls, and a second call goes to the
    fallback vision model. *)
Theorem at_most_one_retry (c : connection) (frame : jsstring) (s : ChatState) (w : W) :
  (forall userText,
     user_frame frame userText None ->
     exists inputs, calls (trace (exec E (onMessage c frame) s w)) = [(TEXT_MODEL, inputs)])
  /\ (length (calls (trace (exec E (onMessage c frame) s w))) <= 2)%nat
  /\ (forall first second,
        calls (trace (exec E (onMessage c frame) s w)) = [first; second] ->
        second.1 = VISION_FALLBACK_MODEL /\ first.1 = VISION_MODEL).
Proof.
  split; [|split].
  - intros userText Hframe.
    destruct (user_frame_calls c frame userText None s w Hframe) as [->|[Himage _]];
      [by eexists|done].
  - destruct (frame_cases E frame) as [Hreset|[(userText & image & Huser)|Hdropped]].
    + rewrite exec_reset_frame by done. simpl. lia.
    + destruct (user_frame_calls c frame userText image s w Huser) as [->|[_ ->]];
        simpl; lia.
    + rewrite Hdropped. simpl. lia.
  - intros first second Hcalls.
    destruct (frame_cases E frame) as [Hreset|[(userText & image & Huser)|Hdropped]].
    + rewrite exec_reset_frame in Hcalls by done. discriminate Hcalls.
    + destruct (user_frame_calls c frame userText image s w Huser)
        as [Hone|[Himage Htwo]]; rewrite Hcalls in *; [discriminate Hone|].
      injection Htwo as -> ->. simpl. split; [done|].
      unfold primary_model. by rewrite Himage.
    + rewrite Hdropped in Hcalls. discriminate Hcalls.
Qed.

(** X16. Every frame that onMessage sends goes to the connection that the
    message came from, whatever the message. *)
Theorem frames_go_to_the_sender (c : connection) (frame : jsstring)
    (s : ChatState) (w : W) :
  Forall (fun to => to.1 = c) (sent (trace (exec E (onMessage c frame) s w))).
Proof.
  destruct (frame_cases E frame) as [Hreset|[(userText & image & Huser)|Hdropped]].
  - rewrite exec_reset_frame by done. by repeat constructor.
  - destruct (exec_user_frame_cases E c frame userText image s w Huser)
      as [(_ & text & _ & ->)|[(_ & _ & _ & notice & ->)|(_ & _ & _ & ->)]].
    + constructor; [done|]. apply Forall_app. split; [|by repeat constructor].
      by apply Forall_fmap, Forall_forall.
    + by repeat constructor.
    + constructor.
  - rewrite Hdropped. constructor.
Qed.

(** X17. When the handler of an accepted user frame returns, the frames
    it has sent end with one assistant_done frame and one assistant frame
    that carry the same text (the reply or a notice), and before them come
    only assistant_start and assistant_chunk frames. When it does not
    return (it throws at a String conversion), it has sent no frame. *)
Theorem stream_ends_with_done_and_assistant (c : connection) (frame userText : jsstring)
    (image : option jsstring) (s : ChatState) (w : W) :
  user_frame frame userText image ->
  (returned (exec E (onMessage c frame) s w) = Some tt ->
   exists stream text,
     sent (trace (exec E (onMessage c frame) s w))
     = stream ++ [(c, assistant_done text); (c, assistant_reply text)]
     /\ Forall (fun to => is_stream_frame to.2) stream)
  /\ (returned (exec E (onMessage c frame) s w) = None ->
      sent (trace (exec E (onMessage c frame) s w)) = []).
Proof.
  intros Huser.
  destruct (exec_user_frame_cases E c frame userText image s w Huser)
    as [(Hret & text & _ & ->)|[(Hret & _ & _ & notice & ->)|(Hret & _ & _ & ->)]];
    rewrite Hret; (split; [|done]).
  - intros _.
    exists ((c, assistant_start)
              :: ((fun chunk => (c, assistant_chunk chunk)) <$> chunks_of text)), text.
    split; [done|]. constructor; [by left|].
    apply Forall_fmap, Forall_forall. intros chunk _. right. by exists chunk.
  - intros _. exists [], notice. by split.
  - done.
Qed.

End CallsAndFrames.

(** X18. toAiMessage attaches the image of a user turn that has one (a
    non-empty imageDataUrl): the message keeps the user role and gets two
    parts, the image and a text that is never empty, the turn's own content
    or "Please describe this image." when the content is empty. Every
    other turn (an assistant turn, a turn without an image or with an empty
    one) is rendered as toTextOnlyMessage renders it. *)
Theorem toAiMessage_differs_only_on_images (turn : ChatMessage) :
  (forall url,
     role turn = user -> imageDataUrl turn = Some url -> url <> [] ->
     exists text,
       toAiMessage turn
       = {| ai_role := chat user; ai_content := TextAndImage text url |}
       /\ text <> []
       /\ (content turn <> [] -> text = content turn)
       /\ (content turn = [] -> text = lit "Please describe this image."))
  /\ (role turn = assistant \/ imageDataUrl turn = None \/ imageDataUrl turn = Some [] ->
      toAiMessage turn = toTextOnlyMessage turn).
Proof.
  unfold toAiMessage, toTextOnlyMessage. split.
  - intros url -> -> Hurl. destruct url as [|u url]; [done|].
    exists (if truthy_string (content turn) then content turn
            else lit "Please describe this image.").
    split; [done|]. by destruct (content turn).
  - intros [->|[->| ->]]; [done| |]; by destruct (role turn).
Qed.

(** ** trim *)







(** ** The earlier version *)

Lemma last_of_two {A} (l : list A) (x y : A) : last (l ++ [x; y]) = Some y.
Proof.
  change [x; y] with ([x] ++ [y]). by rewrite app_assoc, last_snoc.
Qed.

Section EarlierVersion.
Context `{Host} {W : Type} (E : Env W).

(** The inputs of the earlier version's model call. *)
Lemma earlier_inputs_context (nextMessages : list ChatMessage) :
  Array_slice nextMessages (-12) None = drop (length nextMessages - 12) nextMessages.
Proof. change (-12)%Z with (- Z.of_nat 12)%Z. by rewrite Array_slice_last by lia. Qed.

(** A stored turn without an image is given to the call as the plain text
    message that toTextOnlyMessage builds. *)
Lemma stored_turns_without_images (turns : list ChatMessage) :
  Forall (fun turn => imageDataUrl turn = None) turns ->
  Earlier.stored_turn <$> turns = toTextOnlyMessage <$> turns.
Proof.
  intros Hturns. apply Forall_fmap_ext. eapply Forall_impl; [exact Hturns|].
  intros turn Hnone. unfold Earlier.stored_turn, toTextOnlyMessage. by rewrite Hnone.
Qed.

(** The run of the earlier handler on a user frame whose trimmed text is
    not empty. *)
Lemma exec_earlier_frame (c : connection) (frame userText : jsstring)
    (image : option jsstring) (s : ChatState) (w : W)
    (outcome : settled) (w1 : W) (s1 : ChatState) (w2 : W) :
  user_frame frame userText image -> userText <> [] ->
  AI_answer E w TEXT_MODEL
    (ChatInputs
       ({| ai_role := system_role; ai_content := PlainText Earlier.system |}
          :: (Earlier.stored_turn
                <$> drop (length (messages s ++ [userMessage_of userText None]) - 12)
                      (messages s ++ [userMessage_of userText None])))
       512)
  = (outcome, w1) ->
  meanwhile E w1 {| messages := messages s ++ [userMessage_of userText None] |} = (s1, w2) ->
  exec E (Earlier.onMessage c frame) s w
  = logged (Persisted {| messages := messages s ++ [userMessage_of userText None] |})
      (logged
         (Called TEXT_MODEL
            (ChatInputs
               ({| ai_role := system_role; ai_content := PlainText Earlier.system |}
                  :: (Earlier.stored_turn
                        <$> drop (length (messages s ++ [userMessage_of userText None]) - 12)
                              (messages s ++ [userMessage_of userText None])))
               512)
            outcome)
         match outcome with
         | Fulfilled aiResp =>
             match ToString (primary_text aiResp) with
             | Some text =>
                 {| final_state :=
                      {| messages :=
                           (messages s ++ [userMessage_of userText None])
                             ++ [assistant_turn text] |};
                    final_world := w2;
                    trace :=
                      [Persisted
                         {| messages :=
                              (messages s ++ [userMessage_of userText None])
                                ++ [assistant_turn text] |};
                       Sent c (assistant_reply text)];
                    returned := Some Earlier.Returned |}
             | None =>
                 {| final_state := s1; final_world := w2; trace := [Raised];
                    returned := None |}
             end
         | Rejected err =>
             {| final_state := s1; final_world := w2; trace := [];
                returned := Some (Earlier.Threw err) |}
         end).
Proof.
  intros (payload & content & Hparse & Htype & Hcontent & -> & _ & _) Htext Hanswer Hmeanwhile.
  unfold Earlier.onMessage. rewrite Hparse, Htype, Hcontent.
  rewrite bool_decide_true by done. cbn [negb].
  assert (userMessage_of (String_trim content) None
          = {| role := user; content := String_trim content; imageDataUrl := None |})
    as Hturn.
  { unfold userMessage_of. by destruct (String_trim content). }
  rewrite Hturn in *.
  destruct (truthy_string (String_trim content)) eqn:Htruthy;
    [|by destruct (String_trim content)].
  cbn [negb]. unfold mbind, prog_bind, getState, setState, AI_run, send.
  cbn [exec bind]. rewrite earlier_inputs_context.
  change (lit "@cf/meta/llama-3.3-70b-instruct-fp8-fast") with TEXT_MODEL.
  rewrite Hanswer, Hmeanwhile. destruct outcome as [aiResp|err]; cbn [exec bind];
    [|reflexivity].
  destruct (ToString (primary_text aiResp)); reflexivity.
Qed.

(** X19. On a user frame with text and no image, and a history in which
    no stored turn has an image, the earlier and the current handler store
    the same user turn and call the same model with the same context turns
    and the same token limit; the inputs differ only in the text of the
    system instruction. *)
Theorem versions_make_the_same_call (c : connection) (frame userText : jsstring)
    (s : ChatState) (w : W) :
  user_frame frame userText None ->
  Forall (fun turn => imageDataUrl turn = None) (messages s) ->
  exists context,
    calls (trace (exec E (onMessage c frame) s w))
    = [(TEXT_MODEL,
        ChatInputs ({| ai_role := system_role; ai_content := PlainText system |} :: context)
          512)]
    /\ calls (trace (exec E (Earlier.onMessage c frame) s w))
       = [(TEXT_MODEL,
           ChatInputs
             ({| ai_role := system_role; ai_content := PlainText Earlier.system |} :: context)
             512)]
    /\ head (persisted (trace (exec E (onMessage c frame) s w)))
       = head (persisted (trace (exec E (Earlier.onMessage c frame) s w))).
Proof.
  intros Hframe Hstored.
  assert (userText <> []) as Htext.
  { destruct Hframe as (_ & _ & _ & _ & _ & _ & _ & [?|?]); done. }
  assert (Earlier.stored_turn
            <$> drop (length (messages s ++ [userMessage_of userText None]) - 12)
                  (messages s ++ [userMessage_of userText None])
          = toTextOnlyMessage
              <$> drop (length (messages s ++ [userMessage_of userText None]) - 12)
                    (messages s ++ [userMessage_of userText None])) as Hcontext.
  { apply stored_turns_without_images, Forall_drop, Forall_app.
    split; [done|by constructor]. }
  exists (toTextOnlyMessage
            <$> drop (length (messages s ++ [userMessage_of userText None]) - 12)
                  (messages s ++ [userMessage_of userText None])).
  destruct (AI_answer E w TEXT_MODEL
              (ChatInputs
                 ({| ai_role := system_role; ai_content := PlainText Earlier.system |}
                    :: (Earlier.stored_turn
                          <$> drop (length (messages s ++ [userMessage_of userText None]) - 12)
                                (messages s ++ [userMessage_of userText None])))
                 512)) as [r w1] eqn:Hanswer.
  destruct (meanwhile E w1 {| messages := messages s ++ [userMessage_of userText None] |})
    as [s1 w2] eqn:Hmeanwhile.
  rewrite (exec_earlier_frame c frame userText None s w r w1 s1 w2
             Hframe Htext Hanswer Hmeanwhile).
  rewrite Hcontext.
  assert (primary_inputs None (messages s ++ [userMessage_of userText None])
          = ChatInputs
              ({| ai_role := system_role; ai_content := PlainText system |}
                 :: (toTextOnlyMessage
                       <$> drop (length (messages s ++ [userMessage_of userText None]) - 12)
                             (messages s ++ [userMessage_of userText None])))
              512) as Hinputs.
  { unfold primary_inputs. by rewrite earlier_inputs_context. }
  split; [|split].
  - destruct (user_frame_calls E c frame userText None s w Hframe) as [->|[? _]];
      [by rewrite Hinputs|done].
  - unfold logged. cbn [trace]. rewrite !calls_cons.
    destruct r as [aiResp|err]; [|done]. by destruct (ToString (primary_text aiResp)).
  - unfold logged. cbn [trace]. rewrite !persisted_cons.
    by destruct (user_frame_persisted E c frame userText None s w Hframe)
      as [->|(text & ->)].
Qed.

(** X20. When the model call of the earlier handler is rejected, the
    handler throws the error: the user turn stays persisted without a
    reply and no frame at all is sent to the client (the current handler
    sends a notice instead). *)
Theorem earlier_version_throws_on_failure (c : connection) (frame userText : jsstring)
    (image : option jsstring) (s : ChatState) (w : W) (err : thrown)
    (w1 : W) (s1 : ChatState) (w2 : W) :
  user_frame frame userText image -> userText <> [] ->
  AI_answer E w TEXT_MODEL
    (ChatInputs
       ({| ai_role := system_role; ai_content := PlainText Earlier.system |}
          :: (Earlier.stored_turn
                <$> drop (length (messages s ++ [userMessage_of userText None]) - 12)
                      (messages s ++ [userMessage_of userText None])))
       512)
  = (Rejected err, w1) ->
  meanwhile E w1 {| messages := messages s ++ [userMessage_of userText None] |} = (s1, w2) ->
  returned (exec E (Earlier.onMessage c frame) s w) = Some (Earlier.Threw err)
  /\ sent (trace (exec E (Earlier.onMessage c frame) s w)) = []
  /\ persisted (trace (exec E (Earlier.onMessage c frame) s w))
     = [{| messages :=
             messages s
               ++ [{| role := user; content := userText; imageDataUrl := None |}] |}].
Proof.
  intros Hframe Htext Hanswer Hmeanwhile.
  rewrite (exec_earlier_frame c frame userText image s w _ w1 s1 w2
             Hframe Htext Hanswer Hmeanwhile).
  unfold logged. cbn [trace returned]. rewrite !sent_cons, !persisted_cons.
  unfold userMessage_of. by destruct userText.
Qed.

(** X21. On a user frame with text and no image, when the model call of
    each version is fulfilled with the same response and String converts
    its reply text, both versions persist the same two histories; the
    earlier one sends the reply in a single assistant frame, which is the
    last frame that the current one sends. *)
Theorem versions_agree_on_success (c : connection) (frame userText : jsstring)
    (s : ChatState) (w : W) (aiResp : value) (text : jsstring)
    (w1 w1' : W) (s1 s1' : ChatState) (w2 w2' : W) :
  user_frame frame userText None ->
  AI_answer E w (primary_model None)
    (primary_inputs None (messages s ++ [userMessage_of userText None]))
  = (Fulfilled aiResp, w1) ->
  meanwhile E w1 {| messages := messages s ++ [userMessage_of userText None] |} = (s1, w2) ->
  AI_answer E w TEXT_MODEL
    (ChatInputs
       ({| ai_role := system_role; ai_content := PlainText Earlier.system |}
          :: (Earlier.stored_turn
                <$> drop (length (messages s ++ [userMessage_of userText None]) - 12)
                      (messages s ++ [userMessage_of userText None])))
       512)
  = (Fulfilled aiResp, w1') ->
  meanwhile E w1' {| messages := messages s ++ [userMessage_of userText None] |}
  = (s1', w2') ->
  ToString (primary_text aiResp) = Some text ->
  persisted (trace (exec E (Earlier.onMessage c frame) s w))
  = persisted (trace (exec E (onMessage c frame) s w))
  /\ sent (trace (exec E (Earlier.onMessage c frame) s w))
     = [(c, assistant_reply text)]
  /\ last (sent (trace (exec E (onMessage c frame) s w)))
     = Some (c, assistant_reply text)
  /\ returned (exec E (Earlier.onMessage c frame) s w) = Some Earlier.Returned.
Proof.
  intros Hframe Hanswer Hmeanwhile Hanswer' Hmeanwhile' Hstring.
  assert (userText <> []) as Htext.
  { destruct Hframe as (_ & _ & _ & _ & _ & _ & _ & [?|?]); done. }
  rewrite (exec_earlier_frame c frame userText None s w _ w1' s1' w2'
             Hframe Htext Hanswer' Hmeanwhile').
  rewrite (exec_user_frame_fulfilled E c frame userText None s w _ text _ _ _
             Hframe Hanswer Hmeanwhile Hstring).
  rewrite Hstring.
  unfold logged. cbn [trace returned].
  rewrite !sent_cons, !persisted_cons. cbn [persisted sent omap].
  unfold persisted, sent. rewrite !omap_app.
  fold (persisted (chunk_events c (chunks_of text))).
  fold (sent (chunk_events c (chunks_of text))).
  rewrite persisted_chunk_events, sent_chunk_events.
  repeat split; try done.
  exact (last_of_two ((c, assistant_start) :: _) _ _).
Qed.

End EarlierVersion.

(** ** The client *)

(** X22. getAgentId is stable: once it has returned an id (a non-empty
    string, as crypto.randomUUID gives), every later call returns the same
    id and leaves localStorage as it is; the first call writes no other
    key than its own. *)
Theorem getAgentId_is_stable (first later : jsstring) (localStorage : Client.Storage) :
  truthy_string first = true ->
  Client.getAgentId later (Client.getAgentId first localStorage).2
  = Client.getAgentId first localStorage
  /\ (Client.getAgentId first localStorage).2 !! Client.AGENT_STORAGE_KEY
     = Some (Client.getAgentId first localStorage).1
  /\ forall key,
       key <> Client.AGENT_STORAGE_KEY ->
       (Client.getAgentId first localStorage).2 !! key = localStorage !! key.
Proof.
  intros Hfirst. unfold Client.getAgentId. unfold Client.Storage in *.
  destruct (localStorage !! Client.AGENT_STORAGE_KEY) as [existing|] eqn:Hstored.
  - destruct (truthy_string existing) eqn:Hexisting; cbn [fst snd].
    + rewrite Hstored, Hexisting. by repeat split.
    + rewrite lookup_insert_eq, Hfirst. split; [done|]. split; [done|].
      intros key Hkey. by rewrite lookup_insert_ne.
  - cbn [fst snd]. rewrite lookup_insert_eq, Hfirst. split; [done|]. split; [done|].
    intros key Hkey. by rewrite lookup_insert_ne.
Qed.

Lemma receive_app (before after : list ServerFrame) (app : Client.App) :
  Client.receive (before ++ after) app = Client.receive after (Client.receive before app).
Proof. apply fold_left_app. Qed.

Lemma receive_stream (frames : list ServerFrame) (app : Client.App) :
  Forall is_stream_frame frames -> Client.receive frames app = app.
Proof.
  induction 1 as [|frame frames [->|[chunk ->]] _ IH]; [done| |]; exact IH.
Qed.

Lemma receive_reply_stream (c : connection) (chunks : list jsstring) (text : jsstring)
    (app : Client.App) :
  Client.receive
    (snd <$> ((c, assistant_start)
                :: ((fun chunk => (c, assistant_chunk chunk)) <$> chunks)
                ++ [(c, assistant_done text); (c, assistant_reply text)]))
    app
  = {| Client.messages :=
         Client.messages app
           ++ [{| role := assistant; content := text; imageDataUrl := None |}];
       Client.input := Client.input app;
       Client.waitingForReply := false |}.
Proof.
  rewrite fmap_cons, fmap_app, <- list_fmap_compose.
  change (snd (c, assistant_start) :: ?l) with ([assistant_start] ++ l).
  rewrite app_assoc, receive_app.
  rewrite (receive_stream ([assistant_start] ++ _) app); [reflexivity|].
  apply Forall_app. split; [constructor; [by left|constructor]|].
  apply Forall_fmap, Forall_forall. intros chunk _. right. by exists chunk.
Qed.

Section ClientAndServer.
Context `{Host} {W : Type} (E : Env W).

(** X23. Whenever the handler of an accepted user frame returns, with a
    reply or with a notice, the client of this file shows exactly one new
    assistant bubble: it ignores assistant_start, assistant_chunk and
    assistant_done, appends the text of the assistant frame and stops
    waiting. When the handler throws instead, the client receives nothing
    and stays as it is. *)
Theorem client_shows_one_bubble_per_reply (c : connection) (frame userText : jsstring)
    (image : option jsstring) (s : ChatState) (w : W) (app : Client.App) :
  user_frame frame userText image ->
  (returned (exec E (onMessage c frame) s w) = Some tt ->
   exists text,
     Client.receive (snd <$> sent (trace (exec E (onMessage c frame) s w))) app
     = {| Client.messages :=
            Client.messages app
              ++ [{| role := assistant; content := text; imageDataUrl := None |}];
          Client.input := Client.input app;
          Client.waitingForReply := false |}
     /\ last (sent (trace (exec E (onMessage c frame) s w)))
        = Some (c, assistant_reply text))
  /\ (returned (exec E (onMessage c frame) s w) = None ->
      Client.receive (snd <$> sent (trace (exec E (onMessage c frame) s w))) app = app).
Proof.
  intros Huser.
  destruct (exec_user_frame_cases E c frame userText image s w Huser)
    as [(Hret & text & _ & ->)|[(Hret & _ & _ & notice & ->)|(Hret & _ & _ & ->)]];
    rewrite Hret; (split; [|done]).
  - intros _. exists text. split; [apply receive_reply_stream|].
    exact (last_of_two ((c, assistant_start) :: _) _ _).
  - intros _. by exists notice.
  - done.
Qed.


End ClientAndServer.

(** ** The statements on the sample host *)

Lemma sequential_quiet : quiet sequential.
Proof. by intros w s. Qed.

Lemma hello_is_user_frame : user_frame hello_frame (lit "hello") None.
Proof.
  exists (VObj [(lit "type", VStr (lit "user")); (lit "content", VStr (lit "hello"))]),
    (lit "hello").
  repeat split; try reflexivity. by left.
Qed.

Lemma image_frame_is_user_frame : user_frame image_frame (lit "look") (Some sample_image).
Proof.
  exists (VObj [(lit "type", VStr (lit "user")); (lit "content", VStr (lit "look"));
                (lit "imageDataUrl", VStr sample_image)]),
    (lit "look").
  repeat split; try reflexivity. by left.
Qed.

Lemma image_only_frame_is_user_frame :
  user_frame image_only_frame (lit "") (Some sample_image).
Proof.
  exists (VObj [(lit "type", VStr (lit "user")); (lit "content", VStr (lit " "));
                (lit "imageDataUrl", VStr sample_image)]),
    (lit " ").
  repeat split; try reflexivity. by right.
Qed.

Lemma unparsable_frame_ignored_witness :
  JSON_parse (lit "{type: user") = None
  /\ exec sequential (onMessage 1 (lit "{type: user")) {| messages := [hello_turn] |} []
     = {| final_state := {| messages := [hello_turn] |}; final_world := [];
          trace := []; returned := Some tt |}.
Proof.
  split; [reflexivity|].
  apply (unparsable_frame_ignored sequential 1 (lit "{type: user")
           {| messages := [hello_turn] |} []).
  reflexivity.
Defined.

Lemma reset_clears_history_witness :
  exec sequential (onMessage 1 reset_frame) {| messages := [hello_turn] |} []
  = {| final_state := {| messages := [] |}; final_world := [];
       trace := [Persisted {| messages := [] |}; Sent 1 (history [])];
       returned := Some tt |}
  /\ calls (trace (exec sequential (onMessage 1 reset_frame)
                     {| messages := [hello_turn] |} [])) = [].
Proof.
  apply (reset_clears_history sequential 1 reset_frame
           (VObj [(lit "type", VStr (lit "reset"))]) {| messages := [hello_turn] |} []);
    reflexivity.
Defined.

Lemma sample_frames_valid :
  Forall valid_user_frame [hello_frame; image_frame; image_only_frame].
Proof.
  repeat constructor.
  - exists (lit "hello"), None. exact hello_is_user_frame.
  - exists (lit "look"), (Some sample_image). exact image_frame_is_user_frame.
  - exists (lit ""), (Some sample_image). exact image_only_frame_is_user_frame.
Qed.

Lemma user_frames_in_sequence_counts_witness :
  quiet sequential
  /\ Forall valid_user_frame [hello_frame; image_frame; image_only_frame]
  /\ returned (deliver_all sequential 1 [hello_frame; image_frame; image_only_frame]
                 initialState
                 [Fulfilled (response_of "Hi! How can I help?");
                  Rejected (ErrorObject (lit "3040: capacity exceeded"));
                  Fulfilled (response_of "A red bicycle.")])
     = Some tt
  /\ count_role user
       (messages (final_state
          (deliver_all sequential 1 [hello_frame; image_frame; image_only_frame]
             initialState
             [Fulfilled (response_of "Hi! How can I help?");
              Rejected (ErrorObject (lit "3040: capacity exceeded"));
              Fulfilled (response_of "A red bicycle.")])))
     = 3%nat
  /\ (count_role assistant
        (messages (final_state
           (deliver_all sequential 1 [hello_frame; image_frame; image_only_frame]
              initialState
              [Fulfilled (response_of "Hi! How can I help?");
               Rejected (ErrorObject (lit "3040: capacity exceeded"));
               Fulfilled (response_of "A red bicycle.")])))
      <= 3)%nat
  /\ ((count_role assistant
         (messages (final_state
            (deliver_all sequential 1 [hello_frame; image_frame; image_only_frame]
               initialState
               [Fulfilled (response_of "Hi! How can I help?");
                Rejected (ErrorObject (lit "3040: capacity exceeded"));
                Fulfilled (response_of "A red bicycle.")])))
       < 3)%nat ->
      call_failed
        (trace (deliver_all sequential 1 [hello_frame; image_frame; image_only_frame]
                  initialState
                  [Fulfilled (response_of "Hi! How can I help?");
                   Rejected (ErrorObject (lit "3040: capacity exceeded"));
                   Fulfilled (response_of "A red bicycle.")]))
      \/ Raised
           ∈ trace (deliver_all sequential 1 [hello_frame; image_frame; image_only_frame]
                      initialState
                      [Fulfilled (response_of "Hi! How can I help?");
                       Rejected (ErrorObject (lit "3040: capacity exceeded"));
                       Fulfilled (response_of "A red bicycle.")])).
Proof.
  split; [exact sequential_quiet|]. split; [exact sample_frames_valid|].
  exact (user_frames_in_sequence_counts sequential 1
           [hello_frame; image_frame; image_only_frame]
           [Fulfilled (response_of "Hi! How can I help?");
            Rejected (ErrorObject (lit "3040: capacity exceeded"));
            Fulfilled (response_of "A red bicycle.")]
           sequential_quiet sample_frames_valid).
Defined.

Lemma reply_is_streamed_in_chunks_witness :
  exists chunks,
    chunkByWords (lit "one two three four five six seven") 3 = Some chunks
    /\ sent (trace (exec sequential (onMessage 1 hello_frame) initialState
                      [Fulfilled (response_of "one two three four five six seven")]))
       = (1%nat, assistant_start)
           :: ((fun chunk => (1%nat, assistant_chunk chunk)) <$> chunks)
           ++ [(1%nat, assistant_done (lit "one two three four five six seven"));
               (1%nat, assistant_reply (lit "one two three four five six seven"))]
    /\ chunks = [lit "one two three "; lit "four five six "; lit "seven "].
Proof.
  assert ({| messages :=
               (messages initialState ++ [userMessage_of (lit "hello") None])
                 ++ [{| role := assistant;
                        content := lit "one two three four five six seven";
                        imageDataUrl := None |}] |}
            ∈ persisted (trace (exec sequential (onMessage 1 hello_frame) initialState
                                  [Fulfilled (response_of "one two three four five six seven")])))
    as Hin.
  { apply list_elem_of_further, list_elem_of_here. }
  destruct (reply_is_streamed_in_chunks sequential 1 hello_frame (lit "hello") None
              initialState
              [Fulfilled (response_of "one two three four five six seven")]
              (lit "one two three four five six seven")
              hello_is_user_frame Hin)
    as (chunks & Hchunks & Hsent & _ & _ & _ & _ & _ & Hseven).
  exists chunks. split; [exact Hchunks|]. split; [exact Hsent|].
  exact (Hseven (lit "one") (lit "two") (lit "three") (lit "four") (lit "five")
           (lit "six") (lit "seven") eq_refl).
Defined.


Lemma generic_failure_sends_retry_notice_witness :
  error_message (ErrorObject (lit "3040: capacity exceeded"))
  = Some (lit "3040: capacity exceeded")
  /\ String_includes (lit "submit the prompt 'agree'") (lit "3040: capacity exceeded") = false
  /\ exec sequential (onMessage 1 image_frame) initialState
       [Rejected (ErrorObject (lit "3040: capacity exceeded"))]
     = {| final_state := {| messages := [photo_turn] |}; final_world := [];
          trace :=
            [Persisted {| messages := [photo_turn] |};
             Called VISION_MODEL (primary_inputs (Some sample_image) [photo_turn])
               (Rejected (ErrorObject (lit "3040: capacity exceeded")));
             Sent 1 (assistant_done (lit "I hit an AI error. Please try again in a moment."));
             Sent 1 (assistant_reply (lit "I hit an AI error. Please try again in a moment."))];
          returned := Some tt |}.
Proof.
  split; [reflexivity|]. split; [reflexivity|].
  exact (proj1 (generic_failure_sends_retry_notice sequential 1 image_frame (lit "look")
                  (Some sample_image) initialState
                  [Rejected (ErrorObject (lit "3040: capacity exceeded"))]
                  (ErrorObject (lit "3040: capacity exceeded"))
                  (lit "3040: capacity exceeded") []
                  {| messages := [photo_turn] |} []
                  image_frame_is_user_frame eq_refl eq_refl eq_refl (or_intror eq_refl))).
Defined.

Lemma license_failure_falls_back_once_witness :
  error_message license_error
  = Some (lit "5016: Prior to using this model, you must submit the prompt 'agree'.")
  /\ String_includes (lit "submit the prompt 'agree'")
       (lit "5016: Prior to using this model, you must submit the prompt 'agree'.") = true
  /\ calls (trace (exec sequential (onMessage 1 image_only_frame) initialState
                     [Rejected license_error; Rejected (ErrorObject (lit "7000: no route"))]))
     = [(VISION_MODEL,
         primary_inputs (Some sample_image) [userMessage_of (lit "") (Some sample_image)]);
        (VISION_FALLBACK_MODEL,
         PromptInputs
           (system ++ [10; 10]%N ++ lit "User request: " ++ lit "Describe this image.")
           sample_image)]
  /\ sent (trace (exec sequential (onMessage 1 image_only_frame) initialState
                    [Rejected license_error; Rejected (ErrorObject (lit "7000: no route"))]))
     = [(1%nat, assistant_done LICENSE_NOTICE); (1%nat, assistant_reply LICENSE_NOTICE)].
Proof.
  split; [reflexivity|]. split; [reflexivity|].
  destruct (license_failure_falls_back_once sequential 1 image_only_frame (lit "")
              sample_image initialState
              [Rejected license_error; Rejected (ErrorObject (lit "7000: no route"))]
              license_error
              (lit "5016: Prior to using this model, you must submit the prompt 'agree'.")
              [Rejected (ErrorObject (lit "7000: no route"))]
              {| messages := [userMessage_of (lit "") (Some sample_image)] |}
              [Rejected (ErrorObject (lit "7000: no route"))]
              (Rejected (ErrorObject (lit "7000: no route"))) []
              {| messages := [userMessage_of (lit "") (Some sample_image)] |} []
              image_only_frame_is_user_frame eq_refl eq_refl eq_refl eq_refl eq_refl
              eq_refl)
    as [Hcalls Hnotice].
  split; [exact Hcalls|].
  rewrite (Hnotice (ErrorObject (lit "7000: no route")) eq_refl). reflexivity.
Defined.

Lemma image_selects_the_model_witness :
  exists r rest,
    trace (exec sequential (onMessage 1 hello_frame) {| messages := [photo_turn] |} [])
    = Persisted {| messages := [photo_turn; hello_turn] |}
        :: Called TEXT_MODEL
             (ChatInputs
                [system_turn;
                 {| ai_role := chat user; ai_content := PlainText (lit "look") |};
                 {| ai_role := chat user; ai_content := PlainText (lit "hello") |}]
                512) r
        :: rest.
Proof.
  exact (proj2 (image_selects_the_model sequential 1 hello_frame (lit "hello") None
                  {| messages := [photo_turn] |} [] hello_is_user_frame) eq_refl).
Defined.

(** ** Where the claims as first stated fail *)

Lemma padded_frame_is_user_frame : user_frame padded_frame (lit "what is new?") None.
Proof.
  exists (VObj [(lit "type", VStr (lit "user"));
                (lit "content", VStr (lit "  what is new?  "))]),
    (lit "  what is new?  ").
  repeat split; try reflexivity. by left.
Qed.

Ltac no_rejected_call :=
  let Hin := fresh "Hin" in
  intros (? & ? & ? & Hin); cbv [trace] in Hin;
  repeat (apply elem_of_cons in Hin as [Hin|Hin]; [discriminate Hin|]);
  by apply elem_of_nil in Hin.

(** C1 as first stated fails on two inputs. First, two accepted user frames
    whose handlers overlap: the handler of the second frame runs, from its
    start to its end, while the first awaits its model call, and stores its
    user turn and its reply; the first then persists its own captured
    sequence. Both frames were handled and no call failed, yet the history
    holds one user turn, not two. Second, one accepted user frame handled
    alone, whose call is fulfilled with a response that String cannot
    convert: the history holds no assistant turn, and no call failed. *)
Lemma overlapping_or_throwing_handlers_lose_turns :
  (valid_user_frame hello_frame /\ valid_user_frame padded_frame
   /\ exec sequential (onMessage 2 padded_frame) {| messages := [hello_turn] |}
        [Fulfilled (response_of "Not much.")]
      = {| final_state :=
             {| messages := [hello_turn; padded_turn; assistant_turn (lit "Not much.")] |};
           final_world := [];
           trace :=
             [Persisted {| messages := [hello_turn; padded_turn] |};
              Called TEXT_MODEL (primary_inputs None [hello_turn; padded_turn])
                (Fulfilled (response_of "Not much."));
              Persisted
                {| messages := [hello_turn; padded_turn; assistant_turn (lit "Not much.")] |};
              Sent 2 assistant_start;
              Sent 2 (assistant_chunk (lit "Not much. "));
              Slept 24;
              Sent 2 (assistant_done (lit "Not much."));
              Sent 2 (assistant_reply (lit "Not much."))];
           returned := Some tt |}
   /\ exec scripted (onMessage 1 hello_frame) initialState
        {| answers := [Fulfilled (response_of "Hi there")];
           others :=
             [answered_meanwhile 2 padded_frame [Fulfilled (response_of "Not much.")]] |}
      = {| final_state := {| messages := [hello_turn; assistant_turn (lit "Hi there")] |};
           final_world := alone [];
           trace :=
             [Persisted {| messages := [hello_turn] |};
              Called TEXT_MODEL (primary_inputs None [hello_turn])
                (Fulfilled (response_of "Hi there"));
              Persisted {| messages := [hello_turn; assistant_turn (lit "Hi there")] |};
              Sent 1 assistant_start;
              Sent 1 (assistant_chunk (lit "Hi there "));
              Slept 24;
              Sent 1 (assistant_done (lit "Hi there"));
              Sent 1 (assistant_reply (lit "Hi there"))];
           returned := Some tt |}
   /\ count_role user [hello_turn; assistant_turn (lit "Hi there")] = 1%nat)
  /\ (quiet sequential
      /\ Forall valid_user_frame [hello_frame]
      /\ messages (final_state
           (deliver_all sequential 1 [hello_frame] initialState
              [Fulfilled (VObj [(lit "response", no_text)])]))
         = [hello_turn]
      /\ count_role assistant [hello_turn] = 0%nat
      /\ ~ call_failed
             (trace (deliver_all sequential 1 [hello_frame] initialState
                       [Fulfilled (VObj [(lit "response", no_text)])]))).
Proof.
  split.
  - split; [exists (lit "hello"), None; exact hello_is_user_frame|].
    split; [exists (lit "what is new?"), None; exact padded_frame_is_user_frame|].
    split; [reflexivity|]. split; reflexivity.
  - split; [exact sequential_quiet|].
    split; [repeat constructor; exists (lit "hello"), None; exact hello_is_user_frame|].
    split; [reflexivity|]. split; [reflexivity|].
    change (trace (deliver_all sequential 1 [hello_frame] initialState
                     [Fulfilled (VObj [(lit "response", no_text)])]))
      with [Persisted {| messages := [hello_turn] |};
            Called TEXT_MODEL (primary_inputs None [hello_turn])
              (Fulfilled (VObj [(lit "response", no_text)]));
            Raised].
    no_rejected_call.
Qed.

(** C6 as first stated fails when the primary call is rejected with a
    value that is no Error and that String cannot convert: no image is
    attached, yet the handler throws where it reads the text of the error,
    so that it sends no frame and does not return. *)
Lemma unconvertible_error_sends_no_notice :
  user_frame hello_frame (lit "hello") None
  /\ error_message (ThrownValue no_text) = None
  /\ exec sequential (onMessage 1 hello_frame) initialState [Rejected (ThrownValue no_text)]
     = {| final_state := {| messages := [hello_turn] |}; final_world := [];
          trace :=
            [Persisted {| messages := [hello_turn] |};
             Called TEXT_MODEL (primary_inputs None [hello_turn])
               (Rejected (ThrownValue no_text));
             Raised];
          returned := None |}
  /\ sent (trace (exec sequential (onMessage 1 hello_frame) initialState
                    [Rejected (ThrownValue no_text)]))
     = [].
Proof.
  split; [exact hello_is_user_frame|]. split; [reflexivity|].
  split; reflexivity.
Qed.

(** ** The further properties on the sample host *)

Lemma chunkByWords_without_words_witness :
  words_of (lit "  ") = []
  /\ chunkByWords (lit "  ") 0 = Some [lit "  "].
Proof.
  split; [reflexivity|]. exact (chunkByWords_without_words (lit "  ") 0 eq_refl).
Defined.

Lemma chunkByWords_never_returns_witness :
  chunkByWords_fuel 1000 (lit "one two") 0 = None.
Proof.
  apply (chunkByWords_never_returns (lit "one two") 0 1000); [discriminate|lia].
Defined.

Lemma chunks_normalise_spacing_witness :
  exists chunks,
    chunkByWords (lit "  one   two three  four ") 2 = Some chunks
    /\ concat chunks
       = Array_join (lit " ") (words_of (lit "  one   two three  four ")) ++ lit " ".
Proof.
  apply (chunks_normalise_spacing (lit "  one   two three  four ") 2); [discriminate|lia].
Defined.

Lemma chunk_holds_its_group_witness :
  exists chunks,
    chunkByWords (lit "one two three four five") (Z.of_nat 2) = Some chunks
    /\ length chunks = ((length (words_of (lit "one two three four five")) + 2 - 1) / 2)%nat
    /\ forall k chunk,
         chunks !! k = Some chunk ->
         words_of chunk = take 2 (drop (k * 2) (words_of (lit "one two three four five")))
         /\ words_of chunk <> [].
Proof.
  apply (chunk_holds_its_group (lit "one two three four five") 2); [discriminate|lia].
Defined.

Lemma fallback_text_agrees_with_primary_text_witness :
  fallback_text (VObj [(lit "result", VStr (lit "a cat"));
                       (lit "description", VStr (lit "a dog"))] : @value sample_host)
  = primary_text (VObj [(lit "result", VStr (lit "a cat"));
                        (lit "description", VStr (lit "a dog"))]).
Proof.
  apply (fallback_text_agrees_with_primary_text
           (VObj [(lit "result", VStr (lit "a cat"));
                  (lit "description", VStr (lit "a dog"))] : @value sample_host)).
  right. left. reflexivity.
Defined.

Lemma stored_user_turn_witness :
  exists turn rest,
    persisted (trace (exec sequential (onMessage 1 image_only_frame) initialState []))
    = {| messages := messages initialState ++ [turn] |} :: rest
    /\ role turn = user
    /\ content turn <> []
    /\ (content turn = lit ""
        \/ (lit "" = [] /\ Some sample_image <> None
            /\ content turn = lit "Describe this image."))
    /\ imageDataUrl turn = Some sample_image
    /\ (forall url, Some sample_image = Some url -> isImageDataUrl (VStr url) = true).
Proof.
  exact (stored_user_turn sequential 1 image_only_frame (lit "") (Some sample_image)
           initialState [] image_only_frame_is_user_frame).
Defined.


Lemma initial_history_well_formed : well_formed_history (messages initialState).
Proof.
  split; [constructor|]. intros i turn Hi. simpl in Hi. by rewrite lookup_nil in Hi.
Qed.

Lemma history_stays_well_formed_witness :
  well_formed_history
    (messages (final_state
       (deliver_all sequential 1
          [hello_frame; lit "{type: user"; image_only_frame; reset_frame; image_frame;
           hello_frame]
          initialState
          [Fulfilled (response_of "Hi! How can I help?");
           Rejected (ErrorObject (lit "3040: capacity exceeded"));
           Fulfilled (VObj [(lit "response", no_text)]);
           Fulfilled (response_of "Hello again.")]))).
Proof.
  exact (history_stays_well_formed sequential 1
           [hello_frame; lit "{type: user"; image_only_frame; reset_frame; image_frame;
            hello_frame]
           initialState
           [Fulfilled (response_of "Hi! How can I help?");
            Rejected (ErrorObject (lit "3040: capacity exceeded"));
            Fulfilled (VObj [(lit "response", no_text)]);
            Fulfilled (response_of "Hello again.")]
           sequential_quiet initial_history_well_formed).
Defined.

Lemma reset_frame_is_reset : is_reset_frame reset_frame.
Proof. exists (VObj [(lit "type", VStr (lit "reset"))]). by split. Qed.

Lemma reset_forgets_earlier_frames_witness :
  final_state (deliver_all sequential 1 ([hello_frame; image_frame] ++ reset_frame :: [hello_frame])
                 {| messages := [photo_turn] |}
                 [Fulfilled (response_of "one"); Fulfilled (response_of "two");
                  Fulfilled (response_of "three")])
  = final_state (deliver_all sequential 1 [hello_frame] initialState
                   (final_world
                      (deliver_all sequential 1 [hello_frame; image_frame]
                         {| messages := [photo_turn] |}
                         [Fulfilled (response_of "one"); Fulfilled (response_of "two");
                          Fulfilled (response_of "three")])))
  /\ returned (deliver_all sequential 1
                 ([hello_frame; image_frame] ++ reset_frame :: [hello_frame])
                 {| messages := [photo_turn] |}
                 [Fulfilled (response_of "one"); Fulfilled (response_of "two");
                  Fulfilled (response_of "three")])
     = Some tt.
Proof.
  exact (reset_forgets_earlier_frames sequential 1 [hello_frame; image_frame] [hello_frame]
           reset_frame {| messages := [photo_turn] |}
           [Fulfilled (response_of "one"); Fulfilled (response_of "two");
            Fulfilled (response_of "three")]
           reset_frame_is_reset).
Defined.

Lemma context_window_is_bounded_witness :
  exists model context later,
    calls (trace (exec sequential (onMessage 1 image_frame)
                    {| messages := replicate 20 hello_turn |} []))
    = (model,
       ChatInputs ({| ai_role := system_role; ai_content := PlainText system |} :: context)
         512)
        :: later
    /\ length context = Nat.min 12 (S (length (replicate 20 hello_turn)))
    /\ last context
       = Some {| ai_role := chat user;
                 ai_content :=
                   TextAndImage (content (userMessage_of (lit "look") (Some sample_image)))
                     sample_image |}.
Proof.
  exact (context_window_is_bounded sequential 1 image_frame (lit "look") (Some sample_image)
           {| messages := replicate 20 hello_turn |} [] image_frame_is_user_frame).
Defined.

Lemma stream_ends_with_done_and_assistant_witness :
  exists stream text,
    sent (trace (exec sequential (onMessage 1 hello_frame) initialState
                   [Fulfilled (response_of "Hi! How can I help?")]))
    = stream ++ [(1%nat, assistant_done text); (1%nat, assistant_reply text)]
    /\ Forall (fun to => is_stream_frame to.2) stream.
Proof.
  exact (proj1 (stream_ends_with_done_and_assistant sequential 1 hello_frame (lit "hello")
                  None initialState [Fulfilled (response_of "Hi! How can I help?")]
                  hello_is_user_frame) eq_refl).
Defined.

Lemma sample_history_without_images :
  Forall (fun turn => imageDataUrl turn = None)
    [padded_turn; assistant_turn (lit "Not much.")].
Proof. by repeat constructor. Qed.

Lemma versions_make_the_same_call_witness :
  exists context,
    calls (trace (exec sequential (onMessage 1 hello_frame)
                    {| messages := [padded_turn; assistant_turn (lit "Not much.")] |} []))
    = [(TEXT_MODEL,
        ChatInputs ({| ai_role := system_role; ai_content := PlainText system |} :: context)
          512)]
    /\ calls (trace (exec sequential (Earlier.onMessage 1 hello_frame)
                       {| messages := [padded_turn; assistant_turn (lit "Not much.")] |} []))
       = [(TEXT_MODEL,
           ChatInputs
             ({| ai_role := system_role; ai_content := PlainText Earlier.system |} :: context)
             512)]
    /\ head (persisted (trace (exec sequential (onMessage 1 hello_frame)
                                 {| messages := [padded_turn; assistant_turn (lit "Not much.")] |}
                                 [])))
       = head (persisted (trace (exec sequential (Earlier.onMessage 1 hello_frame)
                                   {| messages :=
                                        [padded_turn; assistant_turn (lit "Not much.")] |}
                                   []))).
Proof.
  exact (versions_make_the_same_call sequential 1 hello_frame (lit "hello")
           {| messages := [padded_turn; assistant_turn (lit "Not much.")] |} []
           hello_is_user_frame sample_history_without_images).
Defined.

Lemma earlier_version_throws_on_failure_witness :
  returned (exec sequential (Earlier.onMessage 1 hello_frame) initialState
              [Rejected (ErrorObject (lit "3040: capacity exceeded"))])
  = Some (Earlier.Threw (ErrorObject (lit "3040: capacity exceeded")))
  /\ sent (trace (exec sequential (Earlier.onMessage 1 hello_frame) initialState
                    [Rejected (ErrorObject (lit "3040: capacity exceeded"))]))
     = []
  /\ persisted (trace (exec sequential (Earlier.onMessage 1 hello_frame) initialState
                         [Rejected (ErrorObject (lit "3040: capacity exceeded"))]))
     = [{| messages := messages initialState ++ [hello_turn] |}].
Proof.
  apply (earlier_version_throws_on_failure sequential 1 hello_frame (lit "hello") None
           initialState [Rejected (ErrorObject (lit "3040: capacity exceeded"))]
           (ErrorObject (lit "3040: capacity exceeded")) []
           {| messages := [hello_turn] |} [] hello_is_user_frame);
    [discriminate|reflexivity|reflexivity].
Defined.

Lemma versions_agree_on_success_witness :
  persisted (trace (exec sequential (Earlier.onMessage 1 hello_frame) initialState
                      [Fulfilled (response_of "Hi there")]))
  = persisted (trace (exec sequential (onMessage 1 hello_frame) initialState
                        [Fulfilled (response_of "Hi there")]))
  /\ sent (trace (exec sequential (Earlier.onMessage 1 hello_frame) initialState
                    [Fulfilled (response_of "Hi there")]))
     = [(1%nat, assistant_reply (lit "Hi there"))]
  /\ last (sent (trace (exec sequential (onMessage 1 hello_frame) initialState
                          [Fulfilled (response_of "Hi there")])))
     = Some (1%nat, assistant_reply (lit "Hi there"))
  /\ returned (exec sequential (Earlier.onMessage 1 hello_frame) initialState
                 [Fulfilled (response_of "Hi there")])
     = Some Earlier.Returned.
Proof.
  exact (versions_agree_on_success sequential 1 hello_frame (lit "hello") initialState
           [Fulfilled (response_of "Hi there")] (response_of "Hi there") (lit "Hi there")
           [] [] {| messages := [hello_turn] |} {| messages := [hello_turn] |} [] []
           hello_is_user_frame eq_refl eq_refl eq_refl eq_refl eq_refl).
Defined.

Lemma getAgentId_is_stable_witness :
  Client.getAgentId (lit "9b2f6c1e-0000-4000-8000-000000000002")
    (Client.getAgentId (lit "3a1d5e7c-0000-4000-8000-000000000001") ∅).2
  = Client.getAgentId (lit "3a1d5e7c-0000-4000-8000-000000000001") ∅
  /\ (Client.getAgentId (lit "3a1d5e7c-0000-4000-8000-000000000001") ∅).1
     = lit "3a1d5e7c-0000-4000-8000-000000000001".
Proof.
  split; [|reflexivity].
  exact (proj1 (getAgentId_is_stable (lit "3a1d5e7c-0000-4000-8000-000000000001")
                  (lit "9b2f6c1e-0000-4000-8000-000000000002") ∅ eq_refl)).
Defined.

Lemma client_shows_one_bubble_per_reply_witness :
  exists text,
    Client.receive
      (snd <$> sent (trace (exec sequential (onMessage 1 image_frame) initialState
                              [Rejected (ErrorObject (lit "3040: capacity exceeded"))])))
      {| Client.messages := [photo_turn]; Client.input := lit "";
         Client.waitingForReply := true |}
    = {| Client.messages :=
           [photo_turn]
             ++ [{| role := assistant; content := text; imageDataUrl := None |}];
         Client.input := lit "";
         Client.waitingForReply := false |}
    /\ last (sent (trace (exec sequential (onMessage 1 image_frame) initialState
                            [Rejected (ErrorObject (lit "3040: capacity exceeded"))])))
       = Some (1%nat, assistant_reply text).
Proof.
  exact (proj1 (client_shows_one_bubble_per_reply sequential 1 image_frame (lit "look")
                  (Some sample_image) initialState
                  [Rejected (ErrorObject (lit "3040: capacity exceeded"))]
                  {| Client.messages := [photo_turn]; Client.input := lit "";
                     Client.waitingForReply := true |}
                  image_frame_is_user_frame) eq_refl).
Defined.

